(** * go-worktree: a verification development

    A shallow embedding of the worktree manager ([internal/worktree]), its
    git collaborator ([internal/git]) and the command handlers ([cmd]),
    together with the properties the specification states about them.

    Go strings are byte sequences and are modelled by [string] (a list of
    8-bit [ascii] characters).  Everything the program calls but does not
    define (the [git] executable, the file system, the home-directory lookup,
    the [flag] package) is an explicit environment [Env]; every call the
    program makes is recorded, with its outcome, in a trace of [Event]s. *)

From Stdlib Require Import String Ascii List NArith Bool Lia.
From stdpp Require Import gmap strings list pretty.

Import ListNotations.
Local Open Scope list_scope.

(* ===================================================================== *)
(** * Part of the Go library the program relies on *)
(* ===================================================================== *)

(** ** Package [strings] *)
Module strings.

Definition byte (c : ascii) : N := N_of_ascii c.

(** The table [asciiSpace] of package [strings]. *)
Definition asciiSpace (c : ascii) : bool :=
  match byte c with
  | 9 | 10 | 11 | 12 | 13 | 32 => true
  | _ => false
  end%N.

(** Width in bytes of the white-space rune whose UTF-8 encoding starts
    [s], and [0] when [s] does not start with white space.  The runes are
    those of [unicode.IsSpace]: the six ASCII ones, U+0085, U+00A0, U+1680,
    U+2000..U+200A, U+2028, U+2029, U+202F, U+205F and U+3000. *)
Definition spaceWidth (s : string) : nat :=
  match s with
  | EmptyString => 0
  | String c s1 =>
    if asciiSpace c then 1 else
    match byte c, s1 with
    | 0xC2%N, String c2 _ =>
      if ((byte c2 =? 0x85) || (byte c2 =? 0xA0))%N then 2 else 0
    | 0xE1%N, String c2 (String c3 _) =>
      if ((byte c2 =? 0x9A) && (byte c3 =? 0x80))%N then 3 else 0
    | 0xE2%N, String c2 (String c3 _) =>
      if (byte c2 =? 0x80)%N then
        if (((0x80 <=? byte c3) && (byte c3 <=? 0x8A))
            || (byte c3 =? 0xA8) || (byte c3 =? 0xA9) || (byte c3 =? 0xAF))%N
        then 3 else 0
      else if ((byte c2 =? 0x81) && (byte c3 =? 0x9F))%N then 3 else 0
    | 0xE3%N, String c2 (String c3 _) =>
      if ((byte c2 =? 0x80) && (byte c3 =? 0x80))%N then 3 else 0
    | _, _ => 0
    end
  end.

(** A string cut at the white-space runes: a white-space rune is one chunk
    (of one to three bytes), every other byte is a chunk of its own.  A
    lead byte or an ASCII byte never lies inside another valid rune, so
    the white-space runes found here are those a rune-by-rune scan of the
    string finds. *)
Record Chunk : Type := mkChunk { isSpace : bool; bytes : string }.

Fixpoint chunksFrom (skip : nat) (s : string) : list Chunk :=
  match s with
  | EmptyString => []
  | String c s1 =>
    match skip with
    | S k => chunksFrom k s1
    | O =>
      match spaceWidth s with
      | O => mkChunk false (String c EmptyString) :: chunksFrom 0 s1
      | S k => mkChunk true (substring 0 (S k) s) :: chunksFrom k s1
      end
    end
  end.

Definition chunks (s : string) : list Chunk := chunksFrom 0 s.

Definition unchunk (cs : list Chunk) : string :=
  fold_right (fun c acc => append (bytes c) acc) EmptyString cs.

Fixpoint dropSpaces (cs : list Chunk) : list Chunk :=
  match cs with
  | c :: cs1 => if isSpace c then dropSpaces cs1 else cs
  | [] => []
  end.

(** [strings.TrimSpace]: all leading and trailing white space removed. *)
Definition TrimSpace (s : string) : string :=
  unchunk (rev (dropSpaces (rev (dropSpaces (chunks s))))).

(** The fields of a chunk list, as the pair of the field that is still
    open at the head of the list and the fields after it. *)
Fixpoint fieldsOf (cs : list Chunk) : string * list string :=
  match cs with
  | [] => (EmptyString, [])
  | c :: cs1 =>
    let '(cur, rest) := fieldsOf cs1 in
    if isSpace c then
      (EmptyString, match cur with EmptyString => rest | _ => cur :: rest end)
    else (append (bytes c) cur, rest)
  end.

(** [strings.Fields]: the maximal runs of bytes between white space. *)
Definition Fields (s : string) : list string :=
  let '(cur, rest) := fieldsOf (chunks s) in
  match cur with EmptyString => rest | _ => cur :: rest end.

(** [strings.Split] for a separator of one byte. *)
Fixpoint Split (s : string) (sep : ascii) : list string :=
  match s with
  | EmptyString => [EmptyString]
  | String c s1 =>
    if Ascii.eqb c sep then EmptyString :: Split s1 sep
    else match Split s1 sep with
         | x :: xs => String c x :: xs
         | [] => [String c EmptyString]
         end
  end.

Fixpoint inCutset (c : ascii) (cutset : string) : bool :=
  match cutset with
  | EmptyString => false
  | String d cutset1 => Ascii.eqb c d || inCutset c cutset1
  end.

Fixpoint TrimLeft (s cutset : string) : string :=
  match s with
  | String c s1 => if inCutset c cutset then TrimLeft s1 cutset else s
  | EmptyString => EmptyString
  end.

Fixpoint TrimRight (s cutset : string) : string :=
  match s with
  | EmptyString => EmptyString
  | String c s1 =>
    match TrimRight s1 cutset with
    | EmptyString =>
      if inCutset c cutset then EmptyString else String c EmptyString
    | r => String c r
    end
  end.

(** [strings.Trim] for a cutset of ASCII bytes. *)
Definition Trim (s cutset : string) : string :=
  TrimRight (TrimLeft s cutset) cutset.

(** [strings.Join]. *)
Fixpoint Join (elems : list string) (sep : string) : string :=
  match elems with
  | [] => EmptyString
  | [e] => e
  | e :: rest => append e (append sep (Join rest sep))
  end.

Fixpoint HasPrefix (s pre : string) : bool :=
  match pre, s with
  | EmptyString, _ => true
  | String p pre1, String c s1 => Ascii.eqb c p && HasPrefix s1 pre1
  | String _ _, EmptyString => false
  end.

(** [strings.Contains]. *)
Fixpoint Contains (s sub : string) : bool :=
  HasPrefix s sub ||
  match s with
  | EmptyString => false
  | String _ s1 => Contains s1 sub
  end.

End strings.

(** ** Package [path/filepath], on a system whose separator is [/] *)
Module filepath.

Definition Separator : ascii := "/"%char.

Definition isDot (e : string) : bool := String.eqb e ".".
Definition isDotDot (e : string) : bool := String.eqb e "..".

(** One step of [Clean] on the elements kept so far, innermost first:
    empty and [.] elements are dropped, [..] removes the element before
    it when there is one to remove, is kept at the front of a relative
    path, and is dropped at the root. *)
Definition cleanStep (rooted : bool) (out : list string) (e : string)
  : list string :=
  if String.eqb e "" || isDot e then out
  else if isDotDot e then
    match out with
    | top :: below => if isDotDot top then e :: out else below
    | [] => if rooted then [] else [e]
    end
  else e :: out.

(** [filepath.Clean]. *)
Definition Clean (path : string) : string :=
  match path with
  | EmptyString => "."
  | String c _ =>
    let rooted := Ascii.eqb c Separator in
    let out := rev (fold_left (cleanStep rooted) (strings.Split path Separator) []) in
    let body := strings.Join out "/" in
    if rooted then String Separator body
    else match body with EmptyString => "." | _ => body end
  end.

(** [filepath.Join]: the elements from the first non-empty one on are
    joined with the separator and cleaned. *)
Fixpoint Join (elem : list string) : string :=
  match elem with
  | [] => EmptyString
  | e :: rest =>
    match e with
    | EmptyString => Join rest
    | _ => Clean (strings.Join elem "/")
    end
  end.

(** The part of [path] up to and including its last separator. *)
Fixpoint upToLastSep (path : string) : string :=
  match path with
  | EmptyString => EmptyString
  | String c p1 =>
    match upToLastSep p1 with
    | EmptyString =>
      if Ascii.eqb c Separator then String c EmptyString else EmptyString
    | r => String c r
    end
  end.

(** [filepath.Dir]. *)
Definition Dir (path : string) : string := Clean (upToLastSep path).

(** The part of [path] after its last separator. *)
Fixpoint afterLastSep (path : string) : string :=
  match path with
  | EmptyString => EmptyString
  | String c p1 =>
    if existsb (Ascii.eqb Separator) (list_ascii_of_string p1) then afterLastSep p1
    else if Ascii.eqb c Separator then p1 else path
  end.

(** [filepath.Base]. *)
Definition Base (path : string) : string :=
  match path with
  | EmptyString => "."
  | _ =>
    match afterLastSep (strings.TrimRight path "/") with
    | EmptyString => "/"
    | b => b
    end
  end.

End filepath.

(* ===================================================================== *)
(** * The world outside the program *)
(* ===================================================================== *)

(** The text of a Go [error] value, as [err.Error()] and the verbs [%v] and
    [%w] of [fmt.Errorf] render it. *)
Definition error : Type := string.

Inductive result (A : Type) : Type :=
| Ok (a : A)
| Err (e : error).
Arguments Ok {A} a.
Arguments Err {A} e.

(** How the run of an external command ended, as package [os/exec] reports
    it to [Run], [Output] and [CombinedOutput]. *)
Inductive Status : Type :=
| Exited (code : N)   (* the command ran and exited with this status *)
| Failed (e : error). (* it could not be started, or did not end by exiting *)

(** One run of a command: how it ended, what it wrote to its standard
    output, and what it wrote to standard output and standard error
    together. *)
Record Proc : Type := mkProc
  { status : Status; stdout : string; combined : string }.

(** The error of a run: none for exit status 0, an [*exec.ExitError] for any
    other exit status. *)
Definition runErr (st : Status) : option error :=
  match st with
  | Exited 0 => None
  | Exited code => Some ("exit status " +:+ pretty code)
  | Failed e => Some e
  end.

(** An error of package [os]: its text, and whether
    [errors.Is(err, fs.ErrNotExist)] holds of it. *)
Record FsError : Type := mkFsError { notExist : bool; text : error }.

(** What the program reads of an [os.DirEntry]. *)
Record DirEntry : Type := mkDirEntry { Name : string; IsDir : bool }.

(** What [FlagSet.Parse] does with the arguments of a command.  The flag
    sets of the program are made with [flag.ExitOnError], so [Parse] ends
    the process itself when it does not accept the arguments: for [-h] or
    [-help] it writes the usage of the flag set to standard error and calls
    [os.Exit(0)]; for a bad flag it writes its message and the usage to
    standard error and calls [os.Exit(2)].  Otherwise it returns an error,
    or the value of the one flag the command defines and the remaining
    positional arguments. *)
Inductive Parsed (A : Type) : Type :=
| ParseHelp (usage : string)
| ParseBad (report : string)
| ParseErr (e : error)
| ParseOk (value : A) (args : list string).
Arguments ParseHelp {A} usage.
Arguments ParseBad {A} report.
Arguments ParseErr {A} e.
Arguments ParseOk {A} value args.

Record Env : Type := mkEnv
  { git_run : list string -> Proc;             (* exec.Command("git", args...) *)
    home_dir : result string;                  (* os.UserHomeDir() *)
    mkdir_all : string -> option FsError;      (* os.MkdirAll(path, 0755) *)
    stat : string -> option FsError;           (* os.Stat(path) *)
    read_dir : string -> list DirEntry + FsError;  (* os.ReadDir(path) *)
    parse_base : list string -> Parsed string; (* flag set of create: -base *)
    parse_d : list string -> Parsed bool       (* flag set of delete: -d *)
  }.

(** Every call that leaves the program, in the order the calls are made,
    with what the world answered.  [EvFlagExit] is the end package [flag]
    puts to the process: the text it wrote to standard error, and the
    status it called [os.Exit] with. *)
Inductive Event : Type :=
| EvExec (args : list string) (p : Proc)
| EvUserHomeDir (r : result string)
| EvMkdirAll (path : string) (r : option FsError)
| EvStat (path : string) (r : option FsError)
| EvReadDir (path : string) (r : list DirEntry + FsError)
| EvStdout (s : string)
| EvStderr (s : string)
| EvFlagExit (output : string) (code : nat).

(** ** Programs: a reader of the environment that writes a trace *)

Definition IO (A : Type) : Type := Env -> A * list Event.

Definition io_ret {A} (a : A) : IO A := fun _ => (a, []).

Definition io_bind {A B} (x : IO A) (f : A -> IO B) : IO B :=
  fun env =>
    let '(a, t1) := x env in
    let '(b, t2) := f a env in
    (b, t1 ++ t2).

Declare Scope io_scope.
Delimit Scope io_scope with io.
Notation "'let*' x ':=' m 'in' k" := (io_bind m (fun x => k))
  (at level 10, x name, m at level 100, k at level 200) : io_scope.
Notation "m ';;' k" := (io_bind m (fun _ => k))
  (at level 100, k at level 200, right associativity) : io_scope.

Definition execGit (args : list string) : IO Proc :=
  fun env => let p := git_run env args in (p, [EvExec args p]).

Definition osUserHomeDir : IO (result string) :=
  fun env => let r := home_dir env in (r, [EvUserHomeDir r]).

Definition osMkdirAll (path : string) : IO (option FsError) :=
  fun env => let r := mkdir_all env path in (r, [EvMkdirAll path r]).

Definition osStat (path : string) : IO (option FsError) :=
  fun env => let r := stat env path in (r, [EvStat path r]).

Definition osReadDir (path : string) : IO (list DirEntry + FsError) :=
  fun env => let r := read_dir env path in (r, [EvReadDir path r]).

Definition printOut (s : string) : IO unit := fun _ => (tt, [EvStdout s]).
Definition printErr (s : string) : IO unit := fun _ => (tt, [EvStderr s]).

(** [errors.Is(err, fs.ErrNotExist)]; false of the nil error. *)
Definition errorsIsNotExist (err : option FsError) : bool :=
  match err with
  | Some e => notExist e
  | None => false
  end.

Fixpoint forEach {A} (l : list A) (body : A -> IO unit) : IO unit :=
  match l with
  | [] => io_ret tt
  | a :: l1 => io_bind (body a) (fun _ => forEach l1 body)
  end.

Definition nl : string := String "010"%char EmptyString.

(* ===================================================================== *)
(** * Package [util]: terminal colours *)
(* ===================================================================== *)
Module util.
Definition esc : string := String "027"%char EmptyString.
Definition ColorReset : string := esc +:+ "[0m".
Definition ColorRed : string := esc +:+ "[31m".
Definition ColorGreen : string := esc +:+ "[32m".
Definition ColorYellow : string := esc +:+ "[33m".
Definition ColorBlue : string := esc +:+ "[34m".
End util.

(* ===================================================================== *)
(** * Package [git]: the git collaborator *)
(* ===================================================================== *)
Module git.
Local Open Scope io_scope.

Record Worktree : Type := mkWorktree { Path : string; Branch : string }.

Record Client : Type := mkClient { }.

Definition NewClient : Client := mkClient.

Definition GetRepoName : IO (result string) :=
  let* p := execGit ["rev-parse"; "--show-toplevel"] in
  match runErr (status p) with
  | Some err => io_ret (Err ("not in a git repository: " +:+ err))
  | None =>
    let repoPath := strings.TrimSpace (stdout p) in
    io_ret (Ok (filepath.Base repoPath))
  end.

Definition FetchBranch (branch : string) : IO (option error) :=
  let* p := execGit ["fetch"; "origin"; branch] in
  match runErr (status p) with
  | Some err => io_ret (Some ("failed to fetch branch: " +:+ err))
  | None => io_ret None
  end.

Definition CreateWorktree (path branchName : string) : IO (option error) :=
  let* p := execGit ["worktree"; "add"; path; "-b"; branchName] in
  match runErr (status p) with
  | Some err => io_ret (Some (combined p +:+ ": " +:+ err))
  | None => io_ret None
  end.

Definition RemoveWorktree (path : string) : IO (option error) :=
  let* p := execGit ["worktree"; "remove"; path] in
  match runErr (status p) with
  | Some err => io_ret (Some (combined p +:+ ": " +:+ err))
  | None => io_ret None
  end.

Definition DeleteBranch (branchName : string) : IO (option error) :=
  let* p := execGit ["branch"; "-D"; branchName] in
  match runErr (status p) with
  | Some err => io_ret (Some (combined p +:+ ": " +:+ err))
  | None => io_ret None
  end.

(** The loop of [ListWorktrees] over the lines of the output: a line with
    fewer than three fields is skipped, any other line appends one
    record. *)
Definition parseLine (worktrees : list Worktree) (line : string)
  : list Worktree :=
  let parts := strings.Fields line in
  if length parts <? 3 then worktrees
  else
    let path := nth 0 parts EmptyString in
    let branch := strings.Trim (nth 2 parts EmptyString) "[]" in
    worktrees ++ [mkWorktree path branch].

Definition parseWorktrees (output : string) : list Worktree :=
  let worktreeLines := strings.Split (strings.TrimSpace output) "010"%char in
  fold_left parseLine worktreeLines [].

Definition ListWorktrees : IO (result (list Worktree)) :=
  let* p := execGit ["worktree"; "list"] in
  match runErr (status p) with
  | Some err => io_ret (Err ("failed to list worktrees: " +:+ err))
  | None => io_ret (Ok (parseWorktrees (stdout p)))
  end.

End git.

(* ===================================================================== *)
(** * Package [worktree]: the worktree manager *)
(* ===================================================================== *)
Module worktree.

Record Manager : Type := mkManager
  { git_client : git.Client; basePath : string }.

(** A method with receiver [m *Manager]: the manager it is called on goes
    in, the manager as the method leaves it comes out. *)
Definition Method (A : Type) : Type := Manager -> IO (A * Manager).

Definition ret {A} (a : A) : Method A := fun m => io_ret (a, m).

Definition bind {A B} (x : Method A) (f : A -> Method B) : Method B :=
  fun m => io_bind (x m) (fun am => f (fst am) (snd am)).

(** A call that does not touch the receiver. *)
Definition io {A} (x : IO A) : Method A :=
  fun m => io_bind x (fun a => io_ret (a, m)).

(** Reading the receiver's fields. *)
Definition self : Method Manager := fun m => io_ret (m, m).

Declare Scope method_scope.
Delimit Scope method_scope with method.
Notation "'let*' x ':=' m 'in' k" := (bind m (fun x => k))
  (at level 10, x name, m at level 100, k at level 200) : method_scope.
Notation "m ';;' k" := (bind m (fun _ => k))
  (at level 100, k at level 200, right associativity) : method_scope.

Definition getWorktreeBasePath : IO (result string) :=
  (let* h := osUserHomeDir in
   match h with
   | Err err => io_ret (Err ("could not find home directory: " +:+ err))
   | Ok home => io_ret (Ok (filepath.Join [home; "worktrees"]))
   end)%io.

Definition NewManager : IO Manager :=
  (let* r := getWorktreeBasePath in
   let basePath := match r with
                   | Err _ => "~/worktrees" (* Fallback *)
                   | Ok basePath => basePath
                   end in
   io_ret (mkManager git.NewClient basePath))%io.

Local Open Scope method_scope.

Definition GetPath (ticket : string) : Method (result string) :=
  let* m := self in
  let* r := io git.GetRepoName in
  match r with
  | Err err => ret (Err err)
  | Ok repo => ret (Ok (filepath.Join [basePath m; repo; ticket]))
  end.

Definition Create (ticket baseBranch : string) : Method (option error) :=
  let* m := self in
  let* r := io git.GetRepoName in
  match r with
  | Err err => ret (Some err)
  | Ok repo =>
    (* Ensure base directory exists *)
    let worktreeDir := filepath.Join [basePath m; repo; ticket] in
    let* mk := io (osMkdirAll (filepath.Dir worktreeDir)) in
    match mk with
    | Some err => ret (Some ("failed to create directory: " +:+ text err))
    | None =>
      (* Check if directory already exists *)
      let* st := io (osStat worktreeDir) in
      if negb (errorsIsNotExist st) then
        ret (Some ("directory already exists: " +:+ worktreeDir))
      else
        (* Try to fetch latest from base branch, but don't fail if no
           remote exists *)
        io (printOut ("Fetching latest from " +:+ baseBranch +:+ "..." +:+ nl));;
        let* fe := io (git.FetchBranch baseBranch) in
        match fe with
        | Some err =>
          io (printOut ("Warning: couldn't fetch latest from remote (this is okay for local-only repos): "
                        +:+ err +:+ nl))
        | None => ret tt
        end;;
        (* Create worktree with new branch *)
        io (printOut ("Creating worktree for " +:+ util.ColorBlue +:+ ticket
                      +:+ util.ColorReset +:+ "..." +:+ nl));;
        let* ce := io (git.CreateWorktree worktreeDir ticket) in
        match ce with
        | Some err => ret (Some ("failed to create worktree: " +:+ err))
        | None =>
          io (printOut (util.ColorGreen +:+ "Success!" +:+ util.ColorReset
                        +:+ " Worktree created at: " +:+ worktreeDir +:+ nl));;
          io (printOut ("Run: " +:+ util.ColorYellow +:+ "cd " +:+ worktreeDir
                        +:+ util.ColorReset +:+ " to start working" +:+ nl));;
          ret None
        end
    end
  end.

Definition Delete (ticket : string) (deleteBranch : bool)
  : Method (option error) :=
  let* r := GetPath ticket in
  match r with
  | Err err => ret (Some err)
  | Ok worktreePath =>
    (* Check if worktree exists *)
    let* st := io (osStat worktreePath) in
    if errorsIsNotExist st then
      ret (Some ("worktree for ticket " +:+ ticket +:+ " not found"))
    else
      (* Remove worktree *)
      io (printOut ("Removing worktree for " +:+ util.ColorBlue +:+ ticket
                    +:+ util.ColorReset +:+ "..." +:+ nl));;
      let* re := io (git.RemoveWorktree worktreePath) in
      match re with
      | Some err => ret (Some ("failed to remove worktree: " +:+ err))
      | None =>
        (* Delete branch if requested *)
        let* de :=
          if deleteBranch then
            io (printOut ("Deleting branch " +:+ util.ColorBlue +:+ ticket
                          +:+ util.ColorReset +:+ "..." +:+ nl));;
            io (git.DeleteBranch ticket)
          else ret None in
        match de with
        | Some err => ret (Some ("failed to delete branch: " +:+ err))
        | None =>
          io (printOut (util.ColorGreen +:+ "Done!" +:+ util.ColorReset
                        +:+ " Worktree for ticket " +:+ ticket
                        +:+ " has been removed" +:+ nl));;
          ret None
        end
      end
  end.

(** The lookup table of [List]: path -> branch, a later record of the
    same path replacing an earlier one. *)
Definition makeWorktreeMap (worktrees : list git.Worktree)
  : gmap string string :=
  fold_left (fun mp wt => <[git.Path wt := git.Branch wt]> mp) worktrees ∅.

(** The label [List] gives the worktree directory at [path]. *)
Definition branchLabel (worktreeMap : gmap string string) (path : string)
  : string :=
  match worktreeMap !! path with
  | Some branch => branch
  | None => "detached"
  end.

Definition listRow (ticket path branch : string) : string :=
  "  " +:+ util.ColorGreen +:+ ticket +:+ util.ColorReset +:+ " -> " +:+ path
  +:+ " (" +:+ util.ColorBlue +:+ branch +:+ util.ColorReset +:+ ")" +:+ nl.

(** The body of the loop of [List] over the directory entries. *)
Definition listEntry (worktreeMap : gmap string string) (repoPath : string)
           (entry : DirEntry) : IO unit :=
  if negb (IsDir entry) then io_ret tt
  else
    let ticket := Name entry in
    let path := filepath.Join [repoPath; ticket] in
    let branch := branchLabel worktreeMap path in
    printOut (listRow ticket path branch).

Definition List : Method (option error) :=
  let* m := self in
  let* r := io git.GetRepoName in
  match r with
  | Err err => ret (Some err)
  | Ok repo =>
    (* Get git worktree list *)
    let* wl := io git.ListWorktrees in
    match wl with
    | Err err => ret (Some ("failed to list worktrees: " +:+ err))
    | Ok worktrees =>
      (* Create map for easier lookup *)
      let worktreeMap := makeWorktreeMap worktrees in
      let repoPath := filepath.Join [basePath m; repo] in
      (* Check if directory exists *)
      let* st := io (osStat repoPath) in
      if errorsIsNotExist st then
        io (printOut ("No worktrees found for repository " +:+ util.ColorYellow
                      +:+ repo +:+ util.ColorReset +:+ nl));;
        ret None
      else
        (* List directories in the repo path *)
        io (printOut ("Worktrees for repository " +:+ util.ColorYellow +:+ repo
                      +:+ util.ColorReset +:+ ":" +:+ nl));;
        let* rd := io (osReadDir repoPath) in
        match rd with
        | inr err =>
          ret (Some ("failed to read worktree directory: " +:+ text err))
        | inl entries =>
          if length entries =? 0 then
            io (printOut ("  No worktrees found" +:+ nl));;
            ret None
          else
            io (forEach entries (listEntry worktreeMap repoPath));;
            ret None
        end
    end
  end.

End worktree.

(* ===================================================================== *)
(** * Package [main]: the command dispatcher and its handlers *)
(* ===================================================================== *)
Module main.
Local Open Scope io_scope.

Definition cmdCreate : string := "create".
Definition cmdDelete : string := "delete".
Definition cmdList : string := "list".
Definition cmdCD : string := "cd".
Definition version : string := "1.0.0".

Definition commandAliases : gmap string string :=
  list_to_map
    [("new", cmdCreate); ("add", cmdCreate); ("rm", cmdDelete);
     ("cleanup", cmdDelete); ("remove", cmdDelete); ("ls", cmdList);
     ("switch", cmdCD)].

(** The status the process ends with: [os.Exit(1)] in a handler ends it
    with 1, a handler that returns lets [main] return, which ends it
    with 0, and package [flag] ends it with 0 or 2. *)
Definition ExitStatus : Type := nat.

(** What a call of [Parse] that ends the process leaves in the trace. *)
Definition flagExit {A} (r : Parsed A) : list Event :=
  match r with
  | ParseHelp usage => [EvFlagExit usage 0]
  | ParseBad report => [EvFlagExit report 2]
  | _ => []
  end.

Definition parseBase (arguments : list string) : IO (Parsed string) :=
  fun env => let r := parse_base env arguments in (r, flagExit r).

Definition parseD (arguments : list string) : IO (Parsed bool) :=
  fun env => let r := parse_d env arguments in (r, flagExit r).

(** [fmt.Fprintf(os.Stderr, "%sError: %v%s\n", util.ColorRed, err, util.ColorReset)] *)
Definition reportError (err : error) : IO unit :=
  printErr (util.ColorRed +:+ "Error: " +:+ err +:+ util.ColorReset +:+ nl).

Definition ticketRequired : IO unit :=
  printErr (util.ColorRed +:+ "Error: Ticket ID required" +:+ util.ColorReset +:+ nl).

Definition usageLines : list string :=
  [ "Golang Git Worktree Manager - Streamlined workflow";
    nl +:+ "Usage:";
    "  go-worktree create|add TICKET-ID [BASE-BRANCH]  Create a new worktree (default: main)";
    "  go-worktree delete|rm TICKET-ID [-d]            Delete a worktree (-d to delete branch)";
    "  go-worktree list|ls                             List all your worktrees";
    "  go-worktree cd|switch TICKET-ID                 Print command to change to worktree";
    "  go-worktree help|--help                         Show this help message";
    "  go-worktree version|--version                   Show version information";
    nl +:+ "Examples:";
    "  go-worktree create ABC-746                      Create worktree for ticket ABC-746";
    "  go-worktree create ABC-746 develop              Create from develop branch";
    "  go-worktree delete ABC-746 -d                   Delete worktree and branch";
    "  eval $(go-worktree cd ABC-746)                  Switch to ABC-746 worktree" ].

Definition printUsage : IO unit :=
  forEach usageLines (fun line => printOut (line +:+ nl)).

Definition handleCreate (osArgs : list string) : IO ExitStatus :=
  let* pr := parseBase (skipn 2 osArgs) in
  match pr with
  | ParseHelp _ => io_ret 0
  | ParseBad _ => io_ret 2
  | ParseErr err => reportError err;; io_ret 1
  | ParseOk base args =>
    if length args <? 1 then ticketRequired;; io_ret 1
    else
      let ticket := nth 0 args EmptyString in
      (* Allow overriding base branch as positional arg for convenience *)
      let baseBranch := if 1 <? length args then nth 1 args EmptyString else base in
      let* wt := worktree.NewManager in
      let* r := worktree.Create ticket baseBranch wt in
      match fst r with
      | Some err => reportError err;; io_ret 1
      | None => io_ret 0
      end
  end.

Definition handleDelete (osArgs : list string) : IO ExitStatus :=
  let* pr := parseD (skipn 2 osArgs) in
  match pr with
  | ParseHelp _ => io_ret 0
  | ParseBad _ => io_ret 2
  | ParseErr err => reportError err;; io_ret 1
  | ParseOk deleteBranch args =>
    if length args <? 1 then ticketRequired;; io_ret 1
    else
      let ticket := nth 0 args EmptyString in
      let* wt := worktree.NewManager in
      let* r := worktree.Delete ticket deleteBranch wt in
      match fst r with
      | Some err => reportError err;; io_ret 1
      | None => io_ret 0
      end
  end.

Definition handleList : IO ExitStatus :=
  let* wt := worktree.NewManager in
  let* r := worktree.List wt in
  match fst r with
  | Some err => reportError err;; io_ret 1
  | None => io_ret 0
  end.

Definition handleCD (osArgs : list string) : IO ExitStatus :=
  if length osArgs <? 3 then ticketRequired;; io_ret 1
  else
    let ticket := nth 2 osArgs EmptyString in
    let* wt := worktree.NewManager in
    let* r := worktree.GetPath ticket wt in
    match fst r with
    | Err err => reportError err;; io_ret 1
    | Ok path =>
      (* Output command for shell to evaluate *)
      printOut ("cd " +:+ path +:+ nl);;
      printErr (util.ColorYellow +:+ "Note: Run with eval $(go-worktree cd "
                +:+ ticket +:+ ") to change directory" +:+ util.ColorReset +:+ nl);;
      io_ret 0
    end.

Definition isOneOf (s : string) (l : list string) : bool :=
  existsb (String.eqb s) l.

Definition main (osArgs : list string) : IO ExitStatus :=
  (* Show usage if no arguments are provided *)
  if length osArgs <? 2 then printUsage;; io_ret 0
  else
    let cmdArg := nth 1 osArgs EmptyString in
    if isOneOf cmdArg ["help"; "--help"; "-h"] then printUsage;; io_ret 0
    else if isOneOf cmdArg ["version"; "--version"; "-v"] then
      printOut ("go-worktree version " +:+ version +:+ nl);; io_ret 0
    else
      (* Resolve command alias *)
      let cmd := match commandAliases !! cmdArg with
                 | Some c => c
                 | None => cmdArg
                 end in
      (* Route to appropriate handler *)
      if String.eqb cmd cmdCreate then handleCreate osArgs
      else if String.eqb cmd cmdDelete then handleDelete osArgs
      else if String.eqb cmd cmdList then handleList
      else if String.eqb cmd cmdCD then handleCD osArgs
      else
        printErr (util.ColorRed +:+ "Unknown command: " +:+ cmdArg
                  +:+ util.ColorReset +:+ nl);;
        printUsage;;
        io_ret 1.

End main.

(* ===================================================================== *)
(** * Reading the result of a program *)
(* ===================================================================== *)

Definition value {A} (x : IO A) (env : Env) : A := fst (x env).
Definition events {A} (x : IO A) (env : Env) : list Event := snd (x env).

(** The result of a method, the receiver as the method leaves it, and the
    trace of the call. *)
Definition returned {A} (x : worktree.Method A) (m : worktree.Manager)
           (env : Env) : A := fst (value (x m) env).
Definition receiver {A} (x : worktree.Method A) (m : worktree.Manager)
           (env : Env) : worktree.Manager := snd (value (x m) env).
Definition calls {A} (x : worktree.Method A) (m : worktree.Manager)
           (env : Env) : list Event := events (x m) env.

(** The trace of a loop: the traces of its rounds, one after the other. *)
Definition loopEvents {A} (body : A -> IO unit) (env : Env) (l : list A)
  : list Event :=
  flat_map (fun a => events (body a) env) l.

Fixpoint isPrefixOf (pre l : list string) : bool :=
  match pre, l with
  | [], _ => true
  | p :: pre1, a :: l1 => String.eqb p a && isPrefixOf pre1 l1
  | _ :: _, [] => false
  end.

(** Whether a trace holds a run of [git] whose arguments start with [step]. *)
Definition ranGit (step : list string) (t : list Event) : bool :=
  existsb (fun ev => match ev with
                     | EvExec args _ => isPrefixOf step args
                     | _ => false
                     end) t.

(** The runs of [git] in a trace, in order, each with its error. *)
Fixpoint execLog (t : list Event) : list (list string * option error) :=
  match t with
  | [] => []
  | EvExec args p :: t1 => (args, runErr (status p)) :: execLog t1
  | _ :: t1 => execLog t1
  end.

(** The text written to standard output, in order. *)
Fixpoint stdoutLog (t : list Event) : list string :=
  match t with
  | [] => []
  | EvStdout s :: t1 => s :: stdoutLog t1
  | _ :: t1 => stdoutLog t1
  end.

Definition revParse : list string := ["rev-parse"; "--show-toplevel"].

(* ===================================================================== *)
(** * The specification's reading of the parser and of the listing *)
(* ===================================================================== *)

(** The records a line of [git worktree list] stands for, in the words of
    the specification: none when the line has fewer than three fields,
    otherwise one, with the first field as path and the third field,
    stripped of surrounding brackets, as branch. *)
Definition recordsOfLine (line : string) : list git.Worktree :=
  match strings.Fields line with
  | path :: _ :: branch :: _ => [git.mkWorktree path (strings.Trim branch "[]")]
  | _ => []
  end.

(** The branch git's worktree list records for [path]: that of the last
    record with this path, if there is one. *)
Fixpoint recorded (worktrees : list git.Worktree) (path : string)
  : option string :=
  match worktrees with
  | [] => None
  | wt :: rest =>
    match recorded rest path with
    | Some branch => Some branch
    | None => if String.eqb (git.Path wt) path then Some (git.Branch wt) else None
    end
  end.

(** The row of a listing, as it reads on the terminal: two blanks, the
    entry's name in green, an arrow, the path, and the label in blue
    between parentheses. *)
Definition shownRow (name path label : string) : string :=
  "  " +:+ String "027" "[32m" +:+ name +:+ String "027" "[0m"
  +:+ " -> " +:+ path
  +:+ " (" +:+ String "027" "[34m" +:+ label +:+ String "027" "[0m" +:+ ")"
  +:+ String "010" EmptyString.

(** The header line of a listing. *)
Definition listHeader (repo : string) : string :=
  "Worktrees for repository " +:+ util.ColorYellow +:+ repo
  +:+ util.ColorReset +:+ ":" +:+ nl.

(* ===================================================================== *)
(** * The operations of the git collaborator, taken together *)
(* ===================================================================== *)

Inductive GitOp : Type :=
| OpGetRepoName
| OpFetchBranch (branch : string)
| OpCreateWorktree (path branchName : string)
| OpRemoveWorktree (path : string)
| OpDeleteBranch (branchName : string)
| OpListWorktrees.

(** The command an operation runs. *)
Definition opArgs (op : GitOp) : list string :=
  match op with
  | OpGetRepoName => ["rev-parse"; "--show-toplevel"]
  | OpFetchBranch branch => ["fetch"; "origin"; branch]
  | OpCreateWorktree path branchName => ["worktree"; "add"; path; "-b"; branchName]
  | OpRemoveWorktree path => ["worktree"; "remove"; path]
  | OpDeleteBranch branchName => ["branch"; "-D"; branchName]
  | OpListWorktrees => ["worktree"; "list"]
  end.

Definition errorOf {A} (r : result A) : option error :=
  match r with
  | Ok _ => None
  | Err e => Some e
  end.

(** The error an operation returns, if any. *)
Definition opError (op : GitOp) (env : Env) : option error :=
  match op with
  | OpGetRepoName => errorOf (value git.GetRepoName env)
  | OpFetchBranch branch => value (git.FetchBranch branch) env
  | OpCreateWorktree path branchName => value (git.CreateWorktree path branchName) env
  | OpRemoveWorktree path => value (git.RemoveWorktree path) env
  | OpDeleteBranch branchName => value (git.DeleteBranch branchName) env
  | OpListWorktrees => errorOf (value git.ListWorktrees env)
  end.

(** The operations that read the combined output of their command. *)
Definition readsCombinedOutput (op : GitOp) : bool :=
  match op with
  | OpCreateWorktree _ _ | OpRemoveWorktree _ | OpDeleteBranch _ => true
  | OpGetRepoName | OpFetchBranch _ | OpListWorktrees => false
  end.

(** The fixed text the other operations put before the error of the run. *)
Definition opContext (op : GitOp) : string :=
  match op with
  | OpGetRepoName => "not in a git repository: "
  | OpFetchBranch _ => "failed to fetch branch: "
  | OpListWorktrees => "failed to list worktrees: "
  | _ => EmptyString
  end.

(* ===================================================================== *)
(** * Failures of the world, as a trace shows them *)
(* ===================================================================== *)





(** The line a handler reports an error with. *)
Definition errorReport (msg : string) : string :=
  util.ColorRed +:+ "Error: " +:+ msg +:+ util.ColorReset +:+ nl.




(** How often a trace looks up the home directory. *)
Fixpoint homeLookups (t : list Event) : nat :=
  match t with
  | [] => 0
  | EvUserHomeDir _ :: t1 => S (homeLookups t1)
  | _ :: t1 => homeLookups t1
  end.

(* ===================================================================== *)
(** * Clean paths *)
(* ===================================================================== *)

(** Whether a string holds the path separator. *)
Fixpoint hasSep (s : string) : bool :=
  match s with
  | EmptyString => false
  | String c s1 => Ascii.eqb c filepath.Separator || hasSep s1
  end.

(** A proper element of a path: not empty, not [.], not [..], and without
    separator. *)
Definition properElem (e : string) : Prop :=
  e <> EmptyString /\ filepath.isDot e = false /\ filepath.isDotDot e = false
  /\ hasSep e = false.

(** The element lists [Clean] arrives at (innermost element first): proper
    elements, then, in a relative path only, the [..] elements the path
    starts with. *)
Definition cleanElems (rooted : bool) (out : list string) : Prop :=
  exists proper dotdots,
    out = proper ++ dotdots
    /\ Forall properElem proper
    /\ Forall (fun e => e = "..") dotdots
    /\ (rooted = true -> dotdots = []).

(** Whether a path starts at the root. *)
Definition rootedPath (path : string) : bool :=
  match path with
  | String c _ => Ascii.eqb c filepath.Separator
  | EmptyString => false
  end.

(** The elements [Clean] keeps of a path, innermost first. *)
Definition elemsOf (path : string) : list string :=
  fold_left (filepath.cleanStep (rootedPath path)) (strings.Split path filepath.Separator) [].

(** The text of a clean path with the given elements, outermost first. *)
Definition renderPath (rooted : bool) (elems : list string) : string :=
  let body := strings.Join elems "/" in
  if rooted then String filepath.Separator body
  else match body with EmptyString => "." | _ => body end.

(* ===================================================================== *)
(** * A concrete world *)
(* ===================================================================== *)

(** A repository [/srv/git/repo] without a remote named [origin], owned by
    a user whose home directory is [/home/u].  Git knows the main worktree
    and one linked worktree, [T-1]; the directory of the repository's
    worktrees also holds a directory [T-2] git knows nothing about, a
    directory [locked] that cannot be examined, and a plain file. *)
Module Sample.

Definition ran (out : string) : Proc := mkProc (Exited 0) out out.

Definition died (code : N) (msg : string) : Proc :=
  mkProc (Exited code) EmptyString msg.

Fixpoint sameArgs (a b : list string) : bool :=
  match a, b with
  | [], [] => true
  | x :: a1, y :: b1 => String.eqb x y && sameArgs a1 b1
  | _, _ => false
  end.

Definition worktreeListing : string :=
  "/srv/git/repo               1a2b3c4 [main]" +:+ nl +:+
  "/home/u/worktrees/repo/T-1  5d6e7f8 [T-1]" +:+ nl.

Definition noOrigin : string :=
  "fatal: 'origin' does not appear to be a git repository" +:+ nl.

Definition noBranch : string := "error: branch not found" +:+ nl.

Definition git_run (args : list string) : Proc :=
  if sameArgs args ["rev-parse"; "--show-toplevel"] then ran ("/srv/git/repo" +:+ nl)
  else if isPrefixOf ["fetch"; "origin"] args then died 128 noOrigin
  else if sameArgs args ["worktree"; "list"] then ran worktreeListing
  else if isPrefixOf ["branch"; "-D"] args then died 1 noBranch
  else ran EmptyString.

Definition denied : FsError := mkFsError false "permission denied".
Definition missing : FsError := mkFsError true "no such file or directory".

Definition stat (path : string) : option FsError :=
  if String.eqb path "/home/u/worktrees/repo/locked" then Some denied
  else if existsb (String.eqb path)
            ["/home/u/worktrees/repo"; "/home/u/worktrees/repo/T-1";
             "/home/u/worktrees/repo/T-2"; "/home/u/worktrees/repo/notes.txt"]
  then None
  else Some missing.

Definition read_dir (path : string) : list DirEntry + FsError :=
  if String.eqb path "/home/u/worktrees/repo" then
    inl [mkDirEntry "T-1" true; mkDirEntry "T-2" true;
         mkDirEntry "locked" true; mkDirEntry "notes.txt" false]
  else inr missing.

Definition parse_base (arguments : list string) : Parsed string :=
  match arguments with
  | "-base" :: b :: args => ParseOk b args
  | _ => ParseOk "main" arguments
  end.

Definition parse_d (arguments : list string) : Parsed bool :=
  match arguments with
  | "-d" :: args => ParseOk true args
  | _ => ParseOk false arguments
  end.

Definition env : Env :=
  mkEnv git_run (Ok "/home/u") (fun _ => None) stat read_dir
        parse_base parse_d.

(** The same world for a process that has no home directory. *)
Definition env_homeless : Env :=
  mkEnv git_run (Err "$HOME is not defined") (fun _ => None) stat read_dir
        parse_base parse_d.

Definition manager : worktree.Manager :=
  worktree.mkManager git.NewClient "/home/u/worktrees".

End Sample.

(* ===================================================================== *)
(** * Calls and prints of a trace *)
(* ===================================================================== *)

Definition isPrint (ev : Event) : bool :=
  match ev with
  | EvStdout _ | EvStderr _ | EvFlagExit _ _ => true
  | _ => false
  end.

(** The calls of a trace that leave the process: runs of git and calls of
    package [os], without what is printed. *)
Definition worldCalls (t : list Event) : list Event :=
  List.filter (fun ev => negb (isPrint ev)) t.


(** The lines of [Manager.Create]. *)
Definition fetchingLine (baseBranch : string) : string :=
  "Fetching latest from " +:+ baseBranch +:+ "..." +:+ nl.

Definition fetchWarning (err : error) : string :=
  "Warning: couldn't fetch latest from remote (this is okay for local-only repos): "
  +:+ err +:+ nl.

Definition creatingLine (ticket : string) : string :=
  "Creating worktree for " +:+ util.ColorBlue +:+ ticket +:+ util.ColorReset
  +:+ "..." +:+ nl.

Definition successLines (worktreeDir : string) : list string :=
  [util.ColorGreen +:+ "Success!" +:+ util.ColorReset +:+ " Worktree created at: "
   +:+ worktreeDir +:+ nl;
   "Run: " +:+ util.ColorYellow +:+ "cd " +:+ worktreeDir +:+ util.ColorReset
   +:+ " to start working" +:+ nl].

(** The lines of [Manager.Delete]. *)
Definition removingLine (ticket : string) : string :=
  "Removing worktree for " +:+ util.ColorBlue +:+ ticket +:+ util.ColorReset
  +:+ "..." +:+ nl.

Definition deletingLine (ticket : string) : string :=
  "Deleting branch " +:+ util.ColorBlue +:+ ticket +:+ util.ColorReset
  +:+ "..." +:+ nl.

Definition doneLine (ticket : string) : string :=
  util.ColorGreen +:+ "Done!" +:+ util.ColorReset +:+ " Worktree for ticket "
  +:+ ticket +:+ " has been removed" +:+ nl.



(** A call that changes something: [os.MkdirAll], or a run of git other
    than [git rev-parse --show-toplevel] and [git worktree list]. *)
Definition changesSomething (ev : Event) : bool :=
  match ev with
  | EvMkdirAll _ _ => true
  | EvExec args _ =>
    negb (Sample.sameArgs args revParse || Sample.sameArgs args ["worktree"; "list"])
  | _ => false
  end.

(* ===================================================================== *)
(** * The command line *)
(* ===================================================================== *)

(** The words [main] routes to a handler: the four commands and their
    aliases. *)
Definition commandNames : list string :=
  ["create"; "delete"; "list"; "cd";
   "new"; "add"; "rm"; "cleanup"; "remove"; "ls"; "switch"].

Definition helpNames : list string := ["help"; "--help"; "-h"].
Definition versionNames : list string := ["version"; "--version"; "-v"].

(** What [printUsage] prints. *)
Definition usageEvents : list Event :=
  map (fun line => EvStdout (line +:+ nl)) main.usageLines.

Definition versionLine : string := "go-worktree version 1.0.0" +:+ nl.

Definition unknownLine (cmdArg : string) : string :=
  util.ColorRed +:+ "Unknown command: " +:+ cmdArg +:+ util.ColorReset +:+ nl.

Definition ticketRequiredLine : string :=
  util.ColorRed +:+ "Error: Ticket ID required" +:+ util.ColorReset +:+ nl.

(** The line [handleCD] writes for the shell to evaluate. *)
Definition cdLine (path : string) : string := "cd " +:+ path +:+ nl.

(** The base branches a trace fetches: the last argument of every run of
    [git fetch origin]. *)
Fixpoint fetched (t : list Event) : list string :=
  match t with
  | [] => []
  | EvExec ["fetch"; "origin"; branch] _ :: t1 => branch :: fetched t1
  | _ :: t1 => fetched t1
  end.

(* ===================================================================== *)
(** * The text of [git worktree list] *)
(* ===================================================================== *)

(** A string without white space: no white-space rune, be it one of the
    six ASCII ones or one of several bytes, starts anywhere in it. *)
Fixpoint spaceFree (s : string) : bool :=
  match s with
  | EmptyString => true
  | String _ s1 => Nat.eqb (strings.spaceWidth s) 0 && spaceFree s1
  end.

(** A word of a listing: at least one byte, and no white space. *)
Definition isWord (s : string) : bool :=
  negb (String.eqb s EmptyString) && spaceFree s.

Fixpoint spaces (n : nat) : string :=
  match n with
  | O => EmptyString
  | S k => String " "%char (spaces k)
  end.

(** One line of a listing: the worktree, the number of blanks that pad the
    path beyond the first, and the abbreviated commit. *)
Record ListingLine : Type := mkListingLine
  { worktreeOf : git.Worktree; padding : nat; commit : string }.

(** The line as [git worktree list] prints it: the path, blanks, the
    commit, and the branch in brackets. *)
Definition printLine (l : ListingLine) : string :=
  git.Path (worktreeOf l) +:+ spaces (S (padding l)) +:+ commit l
  +:+ " [" +:+ git.Branch (worktreeOf l) +:+ "]".

(** A listing: its lines, each ended by a newline. *)
Fixpoint printListing (ls : list ListingLine) : string :=
  match ls with
  | [] => EmptyString
  | l :: ls1 => printLine l +:+ nl +:+ printListing ls1
  end.

(** The lines the parser reads back: path and commit are words, the branch
    has no white space, and neither starts nor ends with a bracket. *)
Definition readable (l : ListingLine) : bool :=
  isWord (git.Path (worktreeOf l))
  && isWord (commit l)
  && spaceFree (git.Branch (worktreeOf l))
  && String.eqb (strings.Trim (git.Branch (worktreeOf l)) "[]")
                (git.Branch (worktreeOf l)).

(** ** What the proofs about a listing use *)

Fixpoint allBytes (p : ascii -> bool) (s : string) : bool :=
  match s with
  | EmptyString => true
  | String c s1 => p c && allBytes p s1
  end.

Definition isAscii (c : ascii) : bool := N.ltb (strings.byte c) 128.

Definition notSpaceByte (c : ascii) : bool := negb (strings.asciiSpace c).

Definition startsAscii (s : string) : bool :=
  match s with
  | EmptyString => true
  | String c _ => isAscii c
  end.

(** A text whose only white space is ASCII white space: a white-space rune
    starts at a byte exactly when the byte is one of the six. *)
Fixpoint asciiSpaced (s : string) : bool :=
  match s with
  | EmptyString => true
  | String c s1 =>
    Nat.eqb (strings.spaceWidth s) (if strings.asciiSpace c then 1 else 0)
    && asciiSpaced s1
  end.

(** The chunks of such a text: one chunk for every byte. *)
Fixpoint byteChunks (s : string) : list strings.Chunk :=
  match s with
  | EmptyString => []
  | String c s1 =>
    strings.mkChunk (strings.asciiSpace c) (String c EmptyString) :: byteChunks s1
  end.

(** The fields after white space: the field that was open is closed. *)
Definition closed (f : string * list string) : list string :=
  match fst f with
  | EmptyString => snd f
  | _ => fst f :: snd f
  end.

Definition newline : ascii := "010"%char.

(** The lines of a listing, without the newline after the last. *)
Fixpoint bodyOf (l : ListingLine) (ls : list ListingLine) : string :=
  match ls with
  | [] => printLine l
  | l1 :: ls1 => printLine l +:+ String newline (bodyOf l1 ls1)
  end.

(* ===================================================================== *)
(** * Tactics that run a program *)
(* ===================================================================== *)

Ltac unfold_prog :=
  cbv beta iota zeta delta
    [value events returned receiver calls
     io_bind io_ret execGit osUserHomeDir osMkdirAll osStat osReadDir
     printOut printErr revParse
     worktree.ret worktree.bind worktree.io worktree.self
     worktree.GetPath worktree.Create worktree.Delete worktree.List
     worktree.NewManager worktree.getWorktreeBasePath
     git.GetRepoName git.FetchBranch git.CreateWorktree git.RemoveWorktree
     git.DeleteBranch git.ListWorktrees fst snd].

Ltac unfold_prog_in H :=
  cbv beta iota zeta delta
    [value events returned receiver calls
     io_bind io_ret execGit osUserHomeDir osMkdirAll osStat osReadDir
     printOut printErr revParse
     worktree.ret worktree.bind worktree.io worktree.self
     worktree.GetPath worktree.Create worktree.Delete worktree.List
     worktree.NewManager worktree.getWorktreeBasePath
     git.GetRepoName git.FetchBranch git.CreateWorktree git.RemoveWorktree
     git.DeleteBranch git.ListWorktrees fst snd] in H.

(** Running a method whose answers from the world are known: unfold the
    program, use the known answers, and repeat. *)
Ltac run_with tac :=
  repeat (progress (unfold_prog; tac)); cbn [app].

(** Case analysis on the next answer of the world a program waits for. *)
Ltac next_answer :=
  match goal with
  | |- context [match ?x with _ => _ end] =>
    lazymatch x with
    | context [match _ with _ => _ end] => fail
    | _ => destruct x eqn:?
    end
  end.

Ltac run_all := repeat (unfold_prog; try next_answer); cbn [app].

(* ===================================================================== *)
(** * The library functions on examples *)
(* ===================================================================== *)
Module LibraryExamples.
Import strings filepath.

Definition tab : string := String "009"%char EmptyString.

(** U+00A0 (no-break space) and U+3000 (ideographic space) in UTF-8. *)
Definition nbsp : string := String "194"%char (String "160"%char EmptyString).
Definition ideographic : string :=
  String "227"%char (String "128"%char (String "128"%char EmptyString)).

Example Fields_git_line :
  Fields "/home/u/worktrees/repo/T-1  1a2b3c4 [T-1]"
  = ["/home/u/worktrees/repo/T-1"; "1a2b3c4"; "[T-1]"].
Proof. reflexivity. Qed.

Example Fields_blank : Fields ("  " +:+ tab +:+ " ") = [].
Proof. reflexivity. Qed.

Example Fields_unicode_space :
  Fields ("a" +:+ nbsp +:+ "b" +:+ ideographic +:+ tab +:+ "c") = ["a"; "b"; "c"].
Proof. reflexivity. Qed.

(** A continuation byte on its own is no white space. *)
Example Fields_stray_byte :
  Fields ("a" +:+ String "160"%char "b") = ["a" +:+ String "160"%char "b"].
Proof. reflexivity. Qed.

Example Split_lines :
  Split ("a" +:+ nl +:+ "b" +:+ nl +:+ nl +:+ "c") "010"%char = ["a"; "b"; ""; "c"].
Proof. reflexivity. Qed.

Example Split_empty : Split "" "010"%char = [""].
Proof. reflexivity. Qed.

Example Trim_brackets : Trim "[[feature]x]" "[]" = "feature]x".
Proof. reflexivity. Qed.

Example TrimSpace_path : TrimSpace ("  /srv/repo" +:+ nl) = "/srv/repo".
Proof. reflexivity. Qed.

Example TrimSpace_unicode :
  TrimSpace (ideographic +:+ "a b" +:+ nbsp +:+ nl) = "a b".
Proof. reflexivity. Qed.

Example Join_three : filepath.Join ["/home/u/worktrees"; "repo"; "T-1"]
                     = "/home/u/worktrees/repo/T-1".
Proof. reflexivity. Qed.

Example Join_skips_empty : filepath.Join [""; "a"; ""; "b"] = "a/b".
Proof. reflexivity. Qed.

Example Clean_dotdot : Clean "a/../../b/./c//" = "../b/c".
Proof. reflexivity. Qed.

Example Clean_root : Clean "/../a/.." = "/".
Proof. reflexivity. Qed.

Example Dir_of_worktree :
  Dir "/home/u/worktrees/repo/T-1" = "/home/u/worktrees/repo".
Proof. reflexivity. Qed.

Example Base_of_toplevel : Base "/srv/git/repo/" = "repo".
Proof. reflexivity. Qed.

Example Base_root : Base "///" = "/".
Proof. reflexivity. Qed.
End LibraryExamples.

Example manager_is_new : value worktree.NewManager Sample.env = Sample.manager.
Proof. reflexivity. Qed.

Example repo_is_repo : value git.GetRepoName Sample.env = Ok "repo".
Proof. reflexivity. Qed.

(* ===================================================================== *)
(** * Facts about strings *)
(* ===================================================================== *)

Lemma append_assoc s t u : (s +:+ t) +:+ u = s +:+ (t +:+ u).
Proof.
  induction s as [|c s IH]; [reflexivity|].
  change (String c ((s +:+ t) +:+ u) = String c (s +:+ (t +:+ u))).
  now rewrite IH.
Qed.

Lemma HasPrefix_app s t : strings.HasPrefix (s +:+ t) s = true.
Proof.
  induction s as [|c s IH].
  - destruct t; reflexivity.
  - simpl. now rewrite Ascii.eqb_refl, IH.
Qed.

Lemma Contains_app s t : strings.Contains (s +:+ t) s = true.
Proof.
  destruct s as [|c s].
  - destruct t; reflexivity.
  - simpl. now rewrite Ascii.eqb_refl, HasPrefix_app.
Qed.

(* ===================================================================== *)
(** * Joining paths step by step *)
(* ===================================================================== *)
Section JoinTwice.
Import filepath.

Lemma Split_not_nil s : strings.Split s Separator <> [].
Proof.
  destruct s as [|c s]; cbn; [discriminate|].
  destruct (Ascii.eqb c Separator); [discriminate|].
  destruct (strings.Split s Separator); discriminate.
Qed.

Lemma Split_app_sep a b :
  strings.Split (a +:+ String Separator b) Separator = strings.Split a Separator ++ strings.Split b Separator.
Proof.
  induction a as [|c a IH].
  - cbn. reflexivity.
  - change (String c a +:+ String Separator b) with (String c (a +:+ String Separator b)).
    cbn [strings.Split]. rewrite IH.
    destruct (Ascii.eqb c Separator); [reflexivity|].
    destruct (strings.Split a Separator) as [|x xs] eqn:Hs; [|reflexivity].
    exfalso. exact (Split_not_nil a Hs).
Qed.

Lemma Split_hasSep s : Forall (fun e => hasSep e = false) (strings.Split s Separator).
Proof.
  induction s as [|c s IH]; cbn [strings.Split].
  - repeat constructor.
  - destruct (Ascii.eqb c Separator) eqn:Hc.
    + constructor; [reflexivity|exact IH].
    + destruct (strings.Split s Separator) as [|x xs].
      * repeat constructor. cbn. now rewrite Hc.
      * inversion IH as [|? ? Hx Hxs]; subst. constructor; [|exact Hxs].
        cbn. now rewrite Hc.
Qed.

Lemma Split_one e : hasSep e = false -> strings.Split e Separator = [e].
Proof.
  induction e as [|c e IH]; cbn [hasSep strings.Split]; [reflexivity|].
  intros H. apply orb_false_elim in H as [Hc He].
  rewrite Hc, (IH He). reflexivity.
Qed.

Lemma Split_Join elems :
  elems <> [] ->
  Forall (fun e => hasSep e = false) elems ->
  strings.Split (strings.Join elems "/") Separator = elems.
Proof.
  induction elems as [|e rest IH]; [congruence|].
  intros _ Hall. inversion Hall as [|? ? He Hrest]; subst.
  destruct rest as [|e' rest'].
  - cbn [strings.Join]. now apply Split_one.
  - change (strings.Join (e :: e' :: rest') "/")
      with (e +:+ String Separator (strings.Join (e' :: rest') "/")).
    rewrite Split_app_sep, (Split_one e He), IH; [reflexivity|discriminate|exact Hrest].
Qed.

(** ** The steps of [Clean] *)

Lemma cleanStep_proper rooted out e :
  properElem e -> cleanStep rooted out e = e :: out.
Proof.
  intros (Hne & Hdot & Hdd & _). unfold cleanStep.
  rewrite Hdot, Hdd. destruct (String.eqb_spec e ""); [contradiction|reflexivity].
Qed.

Lemma fold_proper rooted elems : forall out,
  Forall properElem elems ->
  fold_left (cleanStep rooted) elems out = rev elems ++ out.
Proof.
  induction elems as [|e elems IH]; intros out Hall; [reflexivity|].
  inversion Hall as [|? ? He Hrest]; subst. cbn [fold_left rev].
  rewrite (cleanStep_proper _ _ _ He), (IH _ Hrest), <- app_assoc. reflexivity.
Qed.

Lemma fold_dotdots dotdots : forall out,
  Forall (fun e => e = "..") dotdots ->
  Forall (fun e => e = "..") out ->
  fold_left (cleanStep false) dotdots out = rev dotdots ++ out.
Proof.
  induction dotdots as [|e dotdots IH]; intros out Hall Hout; [reflexivity|].
  inversion Hall as [|? ? He Hrest]; subst. cbn [fold_left rev].
  assert (Hstep : cleanStep false out ".." = ".." :: out).
  { destruct Hout as [|top below Htop _]; [reflexivity|]. subst top. reflexivity. }
  rewrite Hstep, IH, <- app_assoc; [reflexivity|exact Hrest|].
  constructor; [reflexivity|exact Hout].
Qed.

(** Cleaning the elements of a clean path gives the path back. *)
Lemma clean_replay rooted out :
  cleanElems rooted out ->
  fold_left (cleanStep rooted) (rev out) [] = out.
Proof.
  intros (proper & dotdots & -> & Hp & Hd & Hroot).
  rewrite rev_app_distr, fold_left_app.
  assert (Hdd : fold_left (cleanStep rooted) (rev dotdots) [] = dotdots).
  { destruct rooted.
    - rewrite (Hroot eq_refl). reflexivity.
    - rewrite fold_dotdots, rev_involutive, app_nil_r;
        [reflexivity|now apply List.Forall_rev|constructor]. }
  rewrite Hdd, fold_proper, rev_involutive; [reflexivity|now apply List.Forall_rev].
Qed.

Lemma cleanStep_cleanElems rooted out e :
  hasSep e = false ->
  cleanElems rooted out -> cleanElems rooted (cleanStep rooted out e).
Proof.
  intros He (proper & dotdots & -> & Hp & Hd & Hroot). unfold cleanStep.
  destruct (String.eqb_spec e "") as [->|Hne]; cbn [orb].
  { exists proper, dotdots. auto. }
  destruct (isDot e) eqn:Hdot.
  { exists proper, dotdots. auto. }
  destruct (isDotDot e) eqn:Hdd.
  - apply String.eqb_eq in Hdd. subst e.
    destruct proper as [|top proper']; cbn [app].
    + destruct dotdots as [|d dotdots'].
      * destruct rooted.
        -- exists [], []. repeat split; auto.
        -- exists [], [".."]. repeat split; auto. discriminate.
      * inversion Hd as [|? ? Htop Hrest]; subst.
        change (isDotDot "..") with true. cbv iota.
        exists [], (".." :: ".." :: dotdots'). repeat split; auto.
        intros Hr. specialize (Hroot Hr). discriminate.
    + inversion Hp as [|? ? Htop Hrest]; subst.
      destruct Htop as (_ & _ & Htdd & _). rewrite Htdd.
      exists proper', dotdots. auto.
  - exists (e :: proper), dotdots. repeat split; auto.
    constructor; [|exact Hp]. repeat split; auto.
Qed.

Lemma fold_cleanElems rooted elems : forall out,
  Forall (fun e => hasSep e = false) elems ->
  cleanElems rooted out ->
  cleanElems rooted (fold_left (cleanStep rooted) elems out).
Proof.
  induction elems as [|e elems IH]; intros out Hall Hout; [exact Hout|].
  inversion Hall as [|? ? He Hrest]; subst. cbn [fold_left].
  apply IH; [exact Hrest|]. now apply cleanStep_cleanElems.
Qed.

Lemma cleanElems_nil rooted : cleanElems rooted [].
Proof. exists [], []. repeat split; auto. Qed.

Lemma cleanElems_hasSep rooted out :
  cleanElems rooted out -> Forall (fun e => hasSep e = false) out.
Proof.
  intros (proper & dotdots & -> & Hp & Hd & _). apply List.Forall_app. split.
  - eapply List.Forall_impl; [|exact Hp]. intros e (_ & _ & _ & H). exact H.
  - eapply List.Forall_impl; [|exact Hd]. intros e ->. reflexivity.
Qed.

Lemma cleanElems_head rooted out :
  cleanElems rooted out ->
  Forall (fun e => exists c e1, e = String c e1 /\ Ascii.eqb c Separator = false) out.
Proof.
  intros (proper & dotdots & -> & Hp & Hd & _). apply List.Forall_app. split.
  - eapply List.Forall_impl; [|exact Hp]. intros e (Hne & _ & _ & Hs).
    destruct e as [|c e1]; [congruence|]. exists c, e1. split; [reflexivity|].
    cbn in Hs. now apply orb_false_elim in Hs as [Hc _].
  - eapply List.Forall_impl; [|exact Hd]. intros e ->. now exists "."%char, ".".
Qed.

(** ** [Clean] through its elements *)

Lemma Clean_render c path :
  Clean (String c path)
  = renderPath (rootedPath (String c path)) (rev (elemsOf (String c path))).
Proof. reflexivity. Qed.

Lemma Join_head e rest c e1 :
  e = String c e1 ->
  exists s, strings.Join (e :: rest) "/" = String c s.
Proof.
  intros ->. destruct rest; cbn [strings.Join]; eauto.
Qed.

Lemma renderPath_shape rooted elems :
  cleanElems rooted (rev elems) ->
  exists c s, renderPath rooted elems = String c s
              /\ Ascii.eqb c Separator = rooted
              /\ fold_left (cleanStep rooted) (strings.Split (String c s) Separator) []
                 = rev elems.
Proof.
  intros Hce. pose proof (clean_replay _ _ Hce) as Hreplay.
  rewrite rev_involutive in Hreplay.
  pose proof (cleanElems_hasSep _ _ Hce) as Hsep. apply List.Forall_rev in Hsep.
  pose proof (cleanElems_head _ _ Hce) as Hhead. apply List.Forall_rev in Hhead.
  rewrite rev_involutive in Hsep, Hhead.
  unfold renderPath. destruct elems as [|e rest].
  - destruct rooted.
    + exists Separator, EmptyString. repeat split.
    + exists "."%char, EmptyString. repeat split.
  - inversion Hhead as [|? ? (c & e1 & He & Hc) _]; subst.
    destruct (Join_head (String c e1) rest c e1 eq_refl) as [s Hs].
    assert (Hsplit : strings.Split (strings.Join (String c e1 :: rest) "/") Separator
                     = String c e1 :: rest)
      by (apply Split_Join; [discriminate|exact Hsep]).
    destruct rooted.
    + exists Separator, (strings.Join (String c e1 :: rest) "/"). repeat split.
      cbn [strings.Split]. rewrite Ascii.eqb_refl.
      rewrite Hsplit. cbn [fold_left]. exact Hreplay.
    + rewrite Hs in *. exists c, s. repeat split; [exact Hc|].
      rewrite Hsplit. exact Hreplay.
Qed.

Lemma elemsOf_cleanElems path : cleanElems (rootedPath path) (elemsOf path).
Proof.
  apply fold_cleanElems; [apply Split_hasSep|apply cleanElems_nil].
Qed.

(** Cleaning a path before an element is joined to it changes nothing. *)
Lemma Clean_before_join q c :
  q <> EmptyString ->
  Clean (Clean q +:+ String Separator c) = Clean (q +:+ String Separator c).
Proof.
  intros Hq. destruct q as [|ch q]; [congruence|clear Hq].
  rewrite (Clean_render ch q).
  pose proof (elemsOf_cleanElems (String ch q)) as Hce.
  rewrite <- (rev_involutive (elemsOf (String ch q))) in Hce.
  destruct (renderPath_shape _ _ Hce) as (c' & s & -> & Hc' & Hfold).
  rewrite rev_involutive in Hfold.
  change (String c' s +:+ String Separator c) with (String c' (s +:+ String Separator c)).
  change (String ch q +:+ String Separator c) with (String ch (q +:+ String Separator c)).
  rewrite !Clean_render. unfold elemsOf.
  change (rootedPath (String c' (s +:+ String Separator c))) with (Ascii.eqb c' Separator).
  change (rootedPath (String ch (q +:+ String Separator c))) with (Ascii.eqb ch Separator).
  change (rootedPath (String ch q)) with (Ascii.eqb ch Separator) in *.
  rewrite Hc'.
  change (String c' (s +:+ String Separator c)) with (String c' s +:+ String Separator c).
  change (String ch (q +:+ String Separator c)) with (String ch q +:+ String Separator c).
  rewrite !Split_app_sep, !fold_left_app, Hfold. reflexivity.
Qed.

Lemma Clean_not_empty path : Clean path <> EmptyString.
Proof.
  destruct path as [|c path]; [discriminate|].
  rewrite Clean_render. unfold renderPath.
  destruct (rootedPath _); [discriminate|].
  destruct (strings.Join _ _); discriminate.
Qed.

(** Joining in two steps is joining at once: the path list gives an entry
    of the repository's directory is the path get-path gives its name. *)
Lemma Join_twice a b c : Join [Join [a; b]; c] = Join [a; b; c].
Proof.
  assert (Hjoin2 : forall q, q <> EmptyString ->
             Join [Clean q; c] = Clean (q +:+ String Separator c)).
  { intros q Hq. pose proof (Clean_not_empty q) as Hne.
    cbn [Join]. destruct (Clean q) as [|ch cq] eqn:Hcq; [congruence|].
    rewrite <- Hcq. cbn [strings.Join].
    change (Clean q +:+ "/" +:+ c) with (Clean q +:+ String Separator c).
    now apply Clean_before_join. }
  destruct a as [|ca a].
  - destruct b as [|cb b]; [reflexivity|].
    change (Join [""; String cb b]) with (Clean (String cb b)).
    rewrite Hjoin2 by discriminate. reflexivity.
  - change (Join [String ca a; b]) with (Clean (String ca a +:+ String Separator b)).
    rewrite Hjoin2 by discriminate.
    change (Join [String ca a; b; c])
      with (Clean (String ca a +:+ String Separator (b +:+ String Separator c))).
    f_equal.
    change (String Separator (b +:+ String Separator c)) with (String Separator b +:+ String Separator c).
    apply append_assoc.
Qed.

End JoinTwice.

(* ===================================================================== *)
(** * The repository-name lookup *)
(* ===================================================================== *)


Lemma GetRepoName_Ok env repo :
  value git.GetRepoName env = Ok repo ->
  runErr (status (git_run env ["rev-parse"; "--show-toplevel"])) = None /\
  repo = filepath.Base
           (strings.TrimSpace (stdout (git_run env ["rev-parse"; "--show-toplevel"]))).
Proof.
  intros H. unfold_prog_in H.
  destruct (runErr (status (git_run env ["rev-parse"; "--show-toplevel"])));
    unfold_prog_in H; [discriminate|].
  split; [reflexivity|congruence].
Qed.

Lemma GetRepoName_Err env err :
  value git.GetRepoName env = Err err ->
  exists e, runErr (status (git_run env ["rev-parse"; "--show-toplevel"])) = Some e /\
            err = "not in a git repository: " +:+ e.
Proof.
  intros H. unfold_prog_in H.
  destruct (runErr (status (git_run env ["rev-parse"; "--show-toplevel"]))) as [e|];
    unfold_prog_in H; [|discriminate].
  exists e. split; [reflexivity|congruence].
Qed.

Lemma GetRepoName_events env :
  events git.GetRepoName env
  = [EvExec ["rev-parse"; "--show-toplevel"]
            (git_run env ["rev-parse"; "--show-toplevel"])].
Proof.
  unfold_prog.
  destruct (runErr (status (git_run env ["rev-parse"; "--show-toplevel"])));
    reflexivity.
Qed.

(* ===================================================================== *)
(** * The worktree manager: paths and existence checks *)
(* ===================================================================== *)
Section ManagerChecks.
Import worktree.

Variables (env : Env) (m : Manager) (ticket repo : string).
Hypothesis Hrepo : value git.GetRepoName env = Ok repo.

Let dir : string := filepath.Join [basePath m; repo; ticket].

(** C2.  Whenever the repository-name lookup succeeds, get-path returns
    the path join of the manager's base path, the repository name and the
    ticket: a value that depends on these three alone.  The call leaves
    the manager as it was and does nothing but the lookup. *)
Theorem GetPath_is_the_join :
  returned (GetPath ticket) m env = Ok (filepath.Join [basePath m; repo; ticket])
  /\ receiver (GetPath ticket) m env = m
  /\ calls (GetPath ticket) m env = events git.GetRepoName env.
Proof.
  rewrite GetRepoName_events.
  destruct (GetRepoName_Ok _ _ Hrepo) as [Hrun ->].
  run_with ltac:(rewrite ?Hrun). repeat split.
Qed.

(** C4.  When the target directory exists at the existence check
    ([os.Stat] reports no error), create returns an error and never runs
    [git worktree add]; the error is the directory-already-exists one
    when the parent directory could be created. *)
Theorem Create_fails_when_directory_exists (baseBranch : string) :
  stat env dir = None ->
  (exists err, returned (Create ticket baseBranch) m env = Some err)
  /\ ranGit ["worktree"; "add"] (calls (Create ticket baseBranch) m env) = false
  /\ (mkdir_all env (filepath.Dir dir) = None ->
      returned (Create ticket baseBranch) m env
      = Some ("directory already exists: " +:+ dir)).
Proof.
  subst dir. intros Hstat.
  destruct (GetRepoName_Ok _ _ Hrepo) as [Hrun ->].
  destruct (mkdir_all env _) as [e|] eqn:Hmk.
  - run_with ltac:(rewrite ?Hrun, ?Hmk). repeat split; [eauto|discriminate].
  - run_with ltac:(rewrite ?Hrun, ?Hmk, ?Hstat; cbn [errorsIsNotExist negb]).
    repeat split; eauto.
Qed.

(** C9.  Once the parent directory is there, the pre-check of create lets
    through the not-exist answer of [os.Stat] and nothing else: on any
    other answer (the directory exists, or [os.Stat] failed in another
    way, such as a permission error) create returns the
    directory-already-exists error having run no git command but the
    repository lookup; [git fetch] and [git worktree add] are run exactly
    when [os.Stat] reports not-exist. *)
Theorem Create_proceeds_only_on_not_exist (baseBranch : string) :
  mkdir_all env (filepath.Dir dir) = None ->
  (errorsIsNotExist (stat env dir) = false ->
     returned (Create ticket baseBranch) m env
     = Some ("directory already exists: " +:+ dir)
     /\ execLog (calls (Create ticket baseBranch) m env) = [(revParse, None)])
  /\ ranGit ["fetch"] (calls (Create ticket baseBranch) m env)
     = errorsIsNotExist (stat env dir)
  /\ ranGit ["worktree"; "add"] (calls (Create ticket baseBranch) m env)
     = errorsIsNotExist (stat env dir).
Proof.
  subst dir. intros Hmk.
  destruct (GetRepoName_Ok _ _ Hrepo) as [Hrun ->].
  destruct (errorsIsNotExist (stat env _)) eqn:Hst.
  - split; [discriminate|].
    destruct (runErr (status (git_run env ["fetch"; "origin"; baseBranch]))) eqn:Hf;
    match goal with
    | |- context [git_run env ("worktree" :: "add" :: ?a)] =>
      destruct (runErr (status (git_run env ("worktree" :: "add" :: a)))) eqn:Ha
    | _ => idtac
    end;
    run_with ltac:(rewrite ?Hrun, ?Hmk, ?Hst, ?Hf; cbn [negb]);
    match goal with
    | |- context [runErr ?x] => destruct (runErr x)
    end; run_with idtac; split; reflexivity.
  - run_with ltac:(rewrite ?Hrun, ?Hmk, ?Hst; cbn [negb]).
    cbn [execLog]. rewrite Hrun. repeat split.
Qed.

(** C5.  When the worktree directory does not exist ([os.Stat] reports
    not-exist), delete returns the not-found error and runs neither
    [git worktree remove] nor [git branch -D]. *)
Theorem Delete_fails_when_directory_absent (deleteBranch : bool) (err : FsError) :
  stat env dir = Some err ->
  notExist err = true ->
  returned (Delete ticket deleteBranch) m env
  = Some ("worktree for ticket " +:+ ticket +:+ " not found")
  /\ ranGit ["worktree"; "remove"] (calls (Delete ticket deleteBranch) m env) = false
  /\ ranGit ["branch"; "-D"] (calls (Delete ticket deleteBranch) m env) = false.
Proof.
  subst dir. intros Hstat Hne.
  destruct (GetRepoName_Ok _ _ Hrepo) as [Hrun ->].
  run_with ltac:(rewrite ?Hrun, ?Hstat; cbn [errorsIsNotExist]; rewrite ?Hne).
  repeat split.
Qed.

End ManagerChecks.

(* ===================================================================== *)
(** * Delete with the delete-branch option *)
(* ===================================================================== *)

(** C10.  Delete with the delete-branch option is not atomic.  Whenever
    [git branch -D] is run at all, the option was given and
    [git worktree remove] was run before it and succeeded.  And when the
    removal succeeds and the branch deletion then fails, delete returns the
    failed-to-delete-branch error while the removal stands: the failed
    [git branch -D] is the last command run, nothing restores the
    worktree. *)
Theorem Delete_branch_is_not_atomic :
  (forall env m ticket deleteBranch,
      ranGit ["branch"; "-D"] (calls (worktree.Delete ticket deleteBranch) m env) = true ->
      deleteBranch = true
      /\ exists path de,
          execLog (calls (worktree.Delete ticket deleteBranch) m env)
          = [(revParse, None);
             (["worktree"; "remove"; path], None);
             (["branch"; "-D"; ticket], de)])
  /\ (forall env m ticket repo e,
      let path := filepath.Join [worktree.basePath m; repo; ticket] in
      value git.GetRepoName env = Ok repo ->
      errorsIsNotExist (stat env path) = false ->
      runErr (status (git_run env ["worktree"; "remove"; path])) = None ->
      runErr (status (git_run env ["branch"; "-D"; ticket])) = Some e ->
      returned (worktree.Delete ticket true) m env
      = Some ("failed to delete branch: "
              +:+ combined (git_run env ["branch"; "-D"; ticket]) +:+ ": " +:+ e)
      /\ execLog (calls (worktree.Delete ticket true) m env)
         = [(revParse, None);
            (["worktree"; "remove"; path], None);
            (["branch"; "-D"; ticket], Some e)]).
Proof.
  split.
  - intros env m ticket deleteBranch.
    unfold_prog.
    destruct (runErr (status (git_run env ["rev-parse"; "--show-toplevel"]))) eqn:Hrun;
      unfold_prog; [discriminate|].
    destruct (errorsIsNotExist _) eqn:Hst; unfold_prog; [discriminate|].
    match goal with
    | |- context [git_run env ("worktree" :: "remove" :: ?a)] =>
      destruct (runErr (status (git_run env ("worktree" :: "remove" :: a)))) eqn:Hrm
    end; unfold_prog; [discriminate|].
    destruct deleteBranch; unfold_prog; [|discriminate].
    intros _. split; [reflexivity|].
    destruct (runErr (status (git_run env ["branch"; "-D"; ticket]))) eqn:Hbr;
      unfold_prog; cbn [app execLog]; rewrite Hrun, Hrm, Hbr; eauto.
  - intros env m ticket repo e path Hrepo Hst Hrm Hbr. subst path.
    destruct (GetRepoName_Ok _ _ Hrepo) as [Hrun ->].
    run_with ltac:(rewrite ?Hrun, ?Hst, ?Hrm, ?Hbr).
    cbn [execLog]. rewrite Hrun, Hrm, Hbr. split; reflexivity.
Qed.

(* ===================================================================== *)
(** * The manager in the sample world *)
(* ===================================================================== *)

Lemma GetPath_is_the_join_witness :
  value git.GetRepoName Sample.env = Ok "repo"
  /\ returned (worktree.GetPath "T-1") Sample.manager Sample.env
     = Ok "/home/u/worktrees/repo/T-1".
Proof.
  split; [reflexivity|].
  exact (proj1 (GetPath_is_the_join Sample.env Sample.manager "T-1" "repo" eq_refl)).
Defined.

Lemma Create_fails_when_directory_exists_witness :
  stat Sample.env "/home/u/worktrees/repo/T-1" = None
  /\ returned (worktree.Create "T-1" "main") Sample.manager Sample.env
     = Some "directory already exists: /home/u/worktrees/repo/T-1"
  /\ ranGit ["worktree"; "add"]
            (calls (worktree.Create "T-1" "main") Sample.manager Sample.env) = false.
Proof.
  split; [reflexivity|].
  pose proof (Create_fails_when_directory_exists
                Sample.env Sample.manager "T-1" "repo" eq_refl "main" eq_refl)
    as (_ & Hgit & Herr).
  split; [exact (Herr eq_refl) | exact Hgit].
Defined.

Lemma Create_proceeds_only_on_not_exist_witness :
  stat Sample.env "/home/u/worktrees/repo/locked" = Some Sample.denied
  /\ returned (worktree.Create "locked" "main") Sample.manager Sample.env
     = Some "directory already exists: /home/u/worktrees/repo/locked"
  /\ ranGit ["worktree"; "add"]
            (calls (worktree.Create "locked" "main") Sample.manager Sample.env) = false.
Proof.
  split; [reflexivity|].
  pose proof (Create_proceeds_only_on_not_exist
                Sample.env Sample.manager "locked" "repo" eq_refl "main" eq_refl)
    as (Hstop & _ & Hadd).
  split; [exact (proj1 (Hstop eq_refl)) | exact Hadd].
Defined.

Lemma Delete_fails_when_directory_absent_witness :
  stat Sample.env "/home/u/worktrees/repo/T-7" = Some Sample.missing
  /\ returned (worktree.Delete "T-7" true) Sample.manager Sample.env
     = Some "worktree for ticket T-7 not found"
  /\ ranGit ["worktree"; "remove"]
            (calls (worktree.Delete "T-7" true) Sample.manager Sample.env) = false.
Proof.
  split; [reflexivity|].
  pose proof (Delete_fails_when_directory_absent
                Sample.env Sample.manager "T-7" "repo" eq_refl true
                Sample.missing eq_refl eq_refl)
    as (Herr & Hrm & _).
  split; [exact Herr | exact Hrm].
Defined.

Lemma Delete_branch_is_not_atomic_witness :
  returned (worktree.Delete "T-1" true) Sample.manager Sample.env
  = Some ("failed to delete branch: " +:+ Sample.noBranch +:+ ": exit status 1")
  /\ execLog (calls (worktree.Delete "T-1" true) Sample.manager Sample.env)
     = [(revParse, None);
        (["worktree"; "remove"; "/home/u/worktrees/repo/T-1"], None);
        (["branch"; "-D"; "T-1"], Some "exit status 1")].
Proof.
  exact (proj2 Delete_branch_is_not_atomic
               Sample.env Sample.manager "T-1" "repo" "exit status 1"
               eq_refl eq_refl eq_refl eq_refl).
Defined.

(* ===================================================================== *)
(** * The parser of [git worktree list] *)
(* ===================================================================== *)

Lemma parseLine_records worktrees line :
  git.parseLine worktrees line = worktrees ++ recordsOfLine line.
Proof.
  unfold git.parseLine, recordsOfLine.
  destruct (strings.Fields line) as [|p [|h [|b rest]]]; cbn;
    rewrite ?app_nil_r; reflexivity.
Qed.

Lemma fold_parseLine lines : forall worktrees,
  fold_left git.parseLine lines worktrees
  = worktrees ++ flat_map recordsOfLine lines.
Proof.
  induction lines as [|line lines IH]; intros worktrees; cbn.
  - now rewrite app_nil_r.
  - rewrite IH, parseLine_records, <- app_assoc. reflexivity.
Qed.

Lemma ListWorktrees_Ok env worktrees :
  value git.ListWorktrees env = Ok worktrees ->
  runErr (status (git_run env ["worktree"; "list"])) = None /\
  worktrees = git.parseWorktrees (stdout (git_run env ["worktree"; "list"])).
Proof.
  intros H. unfold_prog_in H.
  destruct (runErr (status (git_run env ["worktree"; "list"])));
    unfold_prog_in H; [discriminate|].
  split; [reflexivity|congruence].
Qed.

(** C3.  list-worktrees cuts the trimmed output into lines and every line
    into white-space separated fields; a line with fewer than three fields
    gives no record, any other line gives exactly one record, whose path is
    the first field and whose branch is the third field without the
    brackets around it; the records come in the order of their lines. *)
Theorem ListWorktrees_parses_lines :
  (forall line, length (strings.Fields line) < 3 -> recordsOfLine line = [])
  /\ (forall line, 3 <= length (strings.Fields line) ->
      recordsOfLine line
      = [git.mkWorktree (nth 0 (strings.Fields line) EmptyString)
                        (strings.Trim (nth 2 (strings.Fields line) EmptyString) "[]")])
  /\ (forall output,
      git.parseWorktrees output
      = flat_map recordsOfLine
                 (strings.Split (strings.TrimSpace output) "010"%char))
  /\ (forall env,
      runErr (status (git_run env ["worktree"; "list"])) = None ->
      value git.ListWorktrees env
      = Ok (flat_map recordsOfLine
                     (strings.Split
                        (strings.TrimSpace (stdout (git_run env ["worktree"; "list"])))
                        "010"%char))).
Proof.
  assert (Hparse : forall output,
             git.parseWorktrees output
             = flat_map recordsOfLine
                        (strings.Split (strings.TrimSpace output) "010"%char)).
  { intros output. unfold git.parseWorktrees. now rewrite fold_parseLine. }
  repeat split.
  - intros line Hlen. unfold recordsOfLine.
    destruct (strings.Fields line) as [|p [|h [|b rest]]]; cbn in *; try reflexivity; lia.
  - intros line Hlen. unfold recordsOfLine.
    destruct (strings.Fields line) as [|p [|h [|b rest]]]; cbn in *; try reflexivity; lia.
  - exact Hparse.
  - intros env Hrun. unfold_prog. rewrite Hrun. unfold_prog.
    now rewrite Hparse.
Qed.

Lemma ListWorktrees_parses_lines_witness :
  length (strings.Fields "/srv/bare (bare)") < 3
  /\ recordsOfLine "/srv/bare (bare)" = []
  /\ 3 <= length (strings.Fields "/home/u/worktrees/repo/T-1  5d6e7f8 [T-1]")
  /\ recordsOfLine "/home/u/worktrees/repo/T-1  5d6e7f8 [T-1]"
     = [git.mkWorktree "/home/u/worktrees/repo/T-1" "T-1"]
  /\ value git.ListWorktrees Sample.env
     = Ok [git.mkWorktree "/srv/git/repo" "main";
           git.mkWorktree "/home/u/worktrees/repo/T-1" "T-1"].
Proof.
  destruct ListWorktrees_parses_lines as (Hfew & Hone & _ & Hrun).
  assert (H2 : length (strings.Fields "/srv/bare (bare)") < 3)
  by (apply Nat.ltb_lt; reflexivity).
  assert (H3 : 3 <= length (strings.Fields "/home/u/worktrees/repo/T-1  5d6e7f8 [T-1]"))
    by (apply Nat.leb_le; reflexivity).
  split; [exact H2|]. split; [exact (Hfew _ H2)|].
  split; [exact H3|]. split; [exact (Hone _ H3)|].
  exact (Hrun Sample.env eq_refl).
Defined.

(* ===================================================================== *)
(** * The listing *)
(* ===================================================================== *)

Lemma makeWorktreeMap_fold worktrees : forall (mp : gmap string string) path,
  fold_left (fun mp wt => <[git.Path wt := git.Branch wt]> mp) worktrees mp !! path
  = match recorded worktrees path with
    | Some branch => Some branch
    | None => mp !! path
    end.
Proof.
  induction worktrees as [|wt rest IH]; intros mp path; cbn; [reflexivity|].
  rewrite IH. destruct (recorded rest path); [reflexivity|].
  destruct (String.eqb_spec (git.Path wt) path) as [->|Hne].
  - apply lookup_insert_eq.
  - now apply lookup_insert_ne.
Qed.

Lemma branchLabel_recorded worktrees path :
  worktree.branchLabel (worktree.makeWorktreeMap worktrees) path
  = match recorded worktrees path with
    | Some branch => branch
    | None => "detached"
    end.
Proof.
  unfold worktree.branchLabel, worktree.makeWorktreeMap.
  rewrite makeWorktreeMap_fold.
  destruct (recorded worktrees path); [reflexivity|].
  now rewrite lookup_empty.
Qed.

Lemma recorded_Some worktrees path branch :
  recorded worktrees path = Some branch ->
  exists wt, In wt worktrees /\ git.Path wt = path /\ git.Branch wt = branch.
Proof.
  induction worktrees as [|wt rest IH]; cbn; [discriminate|].
  destruct (recorded rest path) as [b|].
  - intros [= <-]. destruct IH as (wt' & Hin & Hp & Hb); [reflexivity|].
    exists wt'. auto.
  - destruct (String.eqb_spec (git.Path wt) path) as [Hp|]; [|discriminate].
    intros [= <-]. exists wt. auto.
Qed.

Lemma recorded_None worktrees path :
  recorded worktrees path = None <->
  (forall wt, In wt worktrees -> git.Path wt <> path).
Proof.
  induction worktrees as [|wt rest IH]; cbn.
  - split; [intros _ wt []|reflexivity].
  - destruct (recorded rest path) as [b|].
    + split; [discriminate|]. intros Hall.
      assert (Hrest : forall wt0, In wt0 rest -> git.Path wt0 <> path) by auto.
      apply IH in Hrest. discriminate.
    + destruct (String.eqb_spec (git.Path wt) path) as [Hp|Hp].
      * split; [discriminate|]. intros Hall. exfalso. apply (Hall wt); auto.
      * split; [|reflexivity]. intros _ wt0 [<-|Hin]; [exact Hp|].
        now apply IH.
Qed.

Lemma forEach_run {A} (body : A -> IO unit) env (l : list A) :
  forEach l body env = (tt, loopEvents body env l).
Proof.
  induction l as [|a l IH]; cbn; [reflexivity|].
  unfold io_bind, events. rewrite IH.
  destruct (body a env) as [[] t]. reflexivity.
Qed.

Lemma stdoutLog_app t1 t2 : stdoutLog (t1 ++ t2) = stdoutLog t1 ++ stdoutLog t2.
Proof.
  induction t1 as [|ev t1 IH]; cbn; [reflexivity|].
  destruct ev; cbn; now rewrite ?IH.
Qed.

Lemma listEntry_rows worktreeMap repoPath env entries :
  stdoutLog (loopEvents (worktree.listEntry worktreeMap repoPath) env entries)
  = map (fun e => worktree.listRow
                    (Name e) (filepath.Join [repoPath; Name e])
                    (worktree.branchLabel worktreeMap
                                          (filepath.Join [repoPath; Name e])))
        (List.filter IsDir entries).
Proof.
  unfold loopEvents.
  induction entries as [|e entries IH]; cbn [flat_map List.filter]; [reflexivity|].
  rewrite stdoutLog_app, IH. unfold events, worktree.listEntry at 1.
  destruct (IsDir e); reflexivity.
Qed.

(** The row [List] prints is the row as it reads on the terminal. *)
Lemma listRow_shown ticket path branch :
  worktree.listRow ticket path branch = shownRow ticket path branch.
Proof. reflexivity. Qed.

(** C1.  When the repository's worktree directory is there and can be
    read, list prints one row for every entry of it that is a directory,
    in the order of the entries, and nothing for the other entries.  The
    row of an entry reads: the entry's name, an arrow, the joined path
    basePath/repo/entry and, between parentheses, a label.  When git's
    worktree list has a record with this path the label is the branch of
    such a record (of the last one), and when git's list has no record with
    this path the label is "detached". *)
Theorem List_labels_directories env m repo worktrees entries :
  let repoPath := filepath.Join [worktree.basePath m; repo] in
  let pathOf := fun e : DirEntry =>
                  filepath.Join [worktree.basePath m; repo; Name e] in
  let labelOf := fun e : DirEntry =>
                   match recorded worktrees (pathOf e) with
                   | Some branch => branch
                   | None => "detached"
                   end in
  value git.GetRepoName env = Ok repo ->
  value git.ListWorktrees env = Ok worktrees ->
  errorsIsNotExist (stat env repoPath) = false ->
  read_dir env repoPath = inl entries ->
  entries <> [] ->
  returned worktree.List m env = None
  /\ stdoutLog (calls worktree.List m env)
     = listHeader repo
       :: map (fun e => shownRow (Name e) (pathOf e) (labelOf e))
              (List.filter IsDir entries)
  /\ (forall e, In e entries -> IsDir e = true ->
      In (shownRow (Name e) (pathOf e) (labelOf e))
         (stdoutLog (calls worktree.List m env))
      /\ ((exists wt, In wt worktrees /\ git.Path wt = pathOf e) ->
          exists wt, In wt worktrees /\ git.Path wt = pathOf e
                     /\ labelOf e = git.Branch wt)
      /\ ((forall wt, In wt worktrees -> git.Path wt <> pathOf e) ->
          labelOf e = "detached")).
Proof.
  intros repoPath pathOf labelOf Hrepo Hlist Hst Hrd Hne.
  destruct (GetRepoName_Ok _ _ Hrepo) as [Hrun Hrepo'].
  destruct (ListWorktrees_Ok _ _ Hlist) as [Hl Hwts].
  assert (Hout : returned worktree.List m env = None
                 /\ stdoutLog (calls worktree.List m env)
                    = listHeader repo
                      :: map (fun e => shownRow (Name e) (pathOf e) (labelOf e))
                             (List.filter IsDir entries)).
  { subst repoPath pathOf labelOf. subst repo.
    destruct entries as [|e0 entries0]; [congruence|].
    run_with ltac:(rewrite ?Hrun, ?Hl, ?Hst, ?Hrd, ?forEach_run; cbn [length Nat.eqb]).
    split; [reflexivity|].
    rewrite !app_nil_r. cbn [stdoutLog]. rewrite listEntry_rows.
    unfold listHeader. f_equal. apply map_ext. intros e.
    rewrite Join_twice, listRow_shown, <- Hwts, branchLabel_recorded.
    reflexivity. }
  destruct Hout as [Hret Hrows]. repeat split; [exact Hret|exact Hrows| | |].
  - rewrite Hrows. right. apply in_map_iff. exists e. split; [reflexivity|].
    apply filter_In. auto.
  - intros (wt & Hin & Hp). unfold labelOf.
    destruct (recorded worktrees (pathOf e)) as [b|] eqn:Hrec.
    + destruct (recorded_Some _ _ _ Hrec) as (wt' & Hin' & Hp' & Hb').
      exists wt'. auto.
    + exfalso. exact (proj1 (recorded_None _ _) Hrec wt Hin Hp).
  - intros Hnone. unfold labelOf.
    apply recorded_None in Hnone. now rewrite Hnone.
Qed.

Lemma List_labels_directories_witness :
  value git.ListWorktrees Sample.env
  = Ok [git.mkWorktree "/srv/git/repo" "main";
        git.mkWorktree "/home/u/worktrees/repo/T-1" "T-1"]
  /\ read_dir Sample.env "/home/u/worktrees/repo"
     = inl [mkDirEntry "T-1" true; mkDirEntry "T-2" true;
            mkDirEntry "locked" true; mkDirEntry "notes.txt" false]
  /\ stdoutLog (calls worktree.List Sample.manager Sample.env)
     = [listHeader "repo";
        shownRow "T-1" "/home/u/worktrees/repo/T-1" "T-1";
        shownRow "T-2" "/home/u/worktrees/repo/T-2" "detached";
        shownRow "locked" "/home/u/worktrees/repo/locked" "detached"]
  /\ shownRow "T-2" "/home/u/worktrees/repo/T-2" "detached"
     = "  " +:+ String "027" "[32mT-2" +:+ String "027" "[0m"
       +:+ " -> /home/u/worktrees/repo/T-2 ("
       +:+ String "027" "[34mdetached" +:+ String "027" "[0m)"
       +:+ String "010" EmptyString.
Proof.
  split; [reflexivity|]. split; [reflexivity|].
  pose proof (List_labels_directories
                Sample.env Sample.manager "repo"
                [git.mkWorktree "/srv/git/repo" "main";
                 git.mkWorktree "/home/u/worktrees/repo/T-1" "T-1"]
                [mkDirEntry "T-1" true; mkDirEntry "T-2" true;
                 mkDirEntry "locked" true; mkDirEntry "notes.txt" false]
                eq_refl eq_refl eq_refl eq_refl ltac:(discriminate))
    as (_ & Hrows & _).
  split; [exact Hrows|reflexivity].
Defined.

(* ===================================================================== *)
(** * Errors of the git collaborator *)
(* ===================================================================== *)

Lemma runErr_None st : runErr st = None <-> st = Exited 0.
Proof.
  destruct st as [[|code]|e]; cbn; split; congruence.
Qed.

(** As stated, C6 fails: fetch-branch in a repository without the remote
    [origin].  The command exits with status 128 and writes a diagnostic;
    the error of the operation has the exit status and not the
    diagnostic. *)
Lemma git_error_without_output_counterexample :
  let p := git_run Sample.env (opArgs (OpFetchBranch "main")) in
  status p = Exited 128
  /\ combined p = Sample.noOrigin
  /\ opError (OpFetchBranch "main") Sample.env
     = Some "failed to fetch branch: exit status 128"
  /\ strings.Contains "failed to fetch branch: exit status 128" (combined p) = false.
Proof. repeat split. Qed.

(** C6, amended.  Each of the six operations runs one command and returns
    an error exactly when the run of the command reports one, that is, when
    the command did not run to exit status 0; of a command that ran to an
    exit status the operation returns an error exactly when the status is
    not 0.  The error of create-worktree, remove-worktree and delete-branch
    is the combined output of the command followed by the error of the run;
    the error of get-repository-name, fetch-branch and list-worktrees is a
    fixed text of the operation followed by the error of the run, whatever
    the command wrote. *)
Theorem git_operation_errors (op : GitOp) (env : Env) :
  let p := git_run env (opArgs op) in
  (is_Some (opError op env) <-> status p <> Exited 0)
  /\ (forall code, status p = Exited code ->
                   (is_Some (opError op env) <-> code <> 0%N))
  /\ (forall e, opError op env = Some e ->
        exists runerr, runErr (status p) = Some runerr
          /\ if readsCombinedOutput op
             then e = combined p +:+ ": " +:+ runerr
                  /\ strings.Contains e (combined p) = true
             else e = opContext op +:+ runerr).
Proof.
  intros p.
  assert (Herr : opError op env
                 = match runErr (status p) with
                   | None => None
                   | Some runerr =>
                     Some (if readsCombinedOutput op
                           then combined p +:+ ": " +:+ runerr
                           else opContext op +:+ runerr)
                   end).
  { subst p. destruct op; cbn [opError opArgs readsCombinedOutput opContext errorOf];
      unfold_prog; destruct (runErr _); reflexivity. }
  pose proof (runErr_None (status p)) as Hnone.
  assert (H1 : is_Some (opError op env) <-> status p <> Exited 0).
  { rewrite Herr. destruct (runErr (status p)) as [runerr|] eqn:Er.
    - split; [|eauto]. intros _ Hst. apply Hnone in Hst. congruence.
    - split.
      + intros [e He]. discriminate.
      + intros Hst. exfalso. apply Hst, Hnone. reflexivity. }
  split; [exact H1|]. split.
  - intros code Hcode. rewrite H1, Hcode. split; intros H; congruence.
  - rewrite Herr. intros e He.
    destruct (runErr (status p)) as [runerr|]; [|discriminate].
    exists runerr. split; [reflexivity|]. injection He as <-.
    destruct (readsCombinedOutput op); [|reflexivity].
    split; [reflexivity|apply Contains_app].
Qed.

Lemma git_operation_errors_witness :
  status (git_run Sample.env (opArgs (OpDeleteBranch "T-1"))) = Exited 1
  /\ is_Some (opError (OpDeleteBranch "T-1") Sample.env)
  /\ (forall e, opError (OpDeleteBranch "T-1") Sample.env = Some e ->
        strings.Contains e Sample.noBranch = true).
Proof.
  pose proof (git_operation_errors (OpDeleteBranch "T-1") Sample.env)
    as (_ & Hcode & Htext).
  split; [reflexivity|]. split.
  - apply (Hcode 1%N eq_refl). discriminate.
  - intros e He. destruct (Htext e He) as (runerr & _ & _ & Hc). exact Hc.
Defined.

(* ===================================================================== *)
(** * Failures and the exit status *)
(* ===================================================================== *)



Ltac unfold_main :=
  cbv beta iota zeta delta
    [main.handleCreate main.handleDelete main.handleList main.handleCD
     main.parseBase main.parseD main.flagExit main.reportError main.ticketRequired
     value events returned receiver calls
     io_bind io_ret execGit osUserHomeDir osMkdirAll osStat osReadDir
     printOut printErr revParse
     worktree.ret worktree.bind worktree.io worktree.self
     worktree.GetPath worktree.Create worktree.Delete worktree.List
     worktree.NewManager worktree.getWorktreeBasePath
     git.GetRepoName git.FetchBranch git.CreateWorktree git.RemoveWorktree
     git.DeleteBranch git.ListWorktrees fst snd].
























(* ===================================================================== *)
(** * The manager's base path *)
(* ===================================================================== *)

(** As stated, C8 fails: a process without a home directory.  The lookup of
    the home directory fails, and the manager's base path is the literal
    fallback, not a join with any home directory the lookup gave. *)
Lemma basePath_without_home_counterexample :
  home_dir Sample.env_homeless = Err "$HOME is not defined"
  /\ value worktree.getWorktreeBasePath Sample.env_homeless
     = Err "could not find home directory: $HOME is not defined"
  /\ worktree.basePath (value worktree.NewManager Sample.env_homeless) = "~/worktrees"
  /\ ~ (exists home,
          home_dir Sample.env_homeless = Ok home
          /\ worktree.basePath (value worktree.NewManager Sample.env_homeless)
             = filepath.Join [home; "worktrees"]).
Proof.
  repeat split. intros (home & Hhome & _). discriminate.
Qed.

Lemma homeLookups_listEntry worktreeMap repoPath env entries :
  homeLookups (loopEvents (worktree.listEntry worktreeMap repoPath) env entries) = 0.
Proof.
  unfold loopEvents.
  induction entries as [|e entries IH]; [reflexivity|].
  cbn [flat_map]. unfold events at 1, worktree.listEntry at 1.
  destruct (IsDir e); exact IH.
Qed.

Ltac count_lookups step :=
  repeat (unfold_main; step; try next_answer);
  rewrite ?app_nil_r; cbn [app homeLookups];
  rewrite ?homeLookups_listEntry; lia.

Lemma handleCreate_homeLookups osArgs env :
  homeLookups (events (main.handleCreate osArgs) env) <= 1.
Proof. count_lookups idtac. Qed.

Lemma handleDelete_homeLookups osArgs env :
  homeLookups (events (main.handleDelete osArgs) env) <= 1.
Proof. count_lookups idtac. Qed.

Lemma handleList_homeLookups env :
  homeLookups (events main.handleList env) <= 1.
Proof. count_lookups ltac:(rewrite ?forEach_run). Qed.

Lemma handleCD_homeLookups osArgs env :
  homeLookups (events (main.handleCD osArgs) env) <= 1.
Proof. count_lookups idtac. Qed.

Lemma main_homeLookups osArgs env :
  homeLookups (events (main.main osArgs) env) <= 1.
Proof.
  unfold main.main.
  destruct (length osArgs <? 2); [apply Nat.leb_le; reflexivity|].
  destruct (main.isOneOf _ ["help"; "--help"; "-h"]); [apply Nat.leb_le; reflexivity|].
  destruct (main.isOneOf _ ["version"; "--version"; "-v"]);
    [apply Nat.leb_le; reflexivity|].
  destruct (String.eqb _ main.cmdCreate); [apply handleCreate_homeLookups|].
  destruct (String.eqb _ main.cmdDelete); [apply handleDelete_homeLookups|].
  destruct (String.eqb _ main.cmdList); [apply handleList_homeLookups|].
  destruct (String.eqb _ main.cmdCD); [apply handleCD_homeLookups|].
  apply Nat.leb_le; reflexivity.
Qed.

(** C8, amended.  The manager's base path is resolved once, when the
    manager is made, by one lookup of the home directory, and no run of the
    program looks the home directory up more than once: the base path is
    the join of the home directory with "worktrees" when the lookup
    succeeds and the literal "~/worktrees" when it fails.  No operation
    (get-path, create, delete, list) changes the manager afterwards. *)
Theorem basePath_fixed_at_construction :
  (forall env,
      worktree.basePath (value worktree.NewManager env)
      = match home_dir env with
        | Ok home => filepath.Join [home; "worktrees"]
        | Err _ => "~/worktrees"
        end
      /\ events worktree.NewManager env = [EvUserHomeDir (home_dir env)])
  /\ (forall osArgs env, homeLookups (events (main.main osArgs) env) <= 1)
  /\ (forall env m ticket, receiver (worktree.GetPath ticket) m env = m)
  /\ (forall env m ticket baseBranch,
         receiver (worktree.Create ticket baseBranch) m env = m)
  /\ (forall env m ticket deleteBranch,
         receiver (worktree.Delete ticket deleteBranch) m env = m)
  /\ (forall env m, receiver worktree.List m env = m).
Proof.
  repeat split; intros.
  - unfold_prog. destruct (home_dir env); reflexivity.
  - unfold_prog. destruct (home_dir env); reflexivity.
  - apply main_homeLookups.
  - run_all; reflexivity.
  - run_all; reflexivity.
  - run_all; reflexivity.
  - repeat (unfold_prog; rewrite ?forEach_run; try next_answer); reflexivity.
Qed.

(* ===================================================================== *)
(** * The manager outside a repository *)
(* ===================================================================== *)

(** X1.  Outside a git repository, where [git rev-parse] fails, each of
    get-path, create, delete and list returns the not-in-a-repository
    error as it is, having made no other call: no other git command, no
    call of package [os], nothing printed. *)
Theorem outside_a_repository env m ticket baseBranch deleteBranch e :
  runErr (status (git_run env revParse)) = Some e ->
  let err := "not in a git repository: " +:+ e in
  let only := [EvExec revParse (git_run env revParse)] in
  worktree.GetPath ticket m env = (Err err, m, only)
  /\ worktree.Create ticket baseBranch m env = (Some err, m, only)
  /\ worktree.Delete ticket deleteBranch m env = (Some err, m, only)
  /\ worktree.List m env = (Some err, m, only).
Proof.
  intros Hrun err only. subst err only. unfold revParse in *.
  repeat split; run_with ltac:(rewrite ?Hrun); reflexivity.
Qed.

Lemma outside_a_repository_witness :
  let env := mkEnv (fun _ => Sample.died 128 "fatal: not a git repository")
                   (Ok "/home/u") (fun _ => None) Sample.stat Sample.read_dir
                   Sample.parse_base Sample.parse_d in
  returned (worktree.Create "T-1" "main") Sample.manager env
  = Some "not in a git repository: exit status 128"
  /\ calls worktree.List Sample.manager env
     = [EvExec revParse (Sample.died 128 "fatal: not a git repository")].
Proof.
  cbv zeta.
  pose proof (outside_a_repository
                (mkEnv (fun _ => Sample.died 128 "fatal: not a git repository")
                       (Ok "/home/u") (fun _ => None) Sample.stat Sample.read_dir
                       Sample.parse_base Sample.parse_d)
                Sample.manager "T-1" "main" false "exit status 128" eq_refl)
    as (_ & Hc & _ & Hl).
  cbv zeta in Hc, Hl. unfold returned, calls, value, events.
  rewrite Hc, Hl. split; reflexivity.
Defined.

(* ===================================================================== *)
(** * The steps of create *)
(* ===================================================================== *)
Section CreateSteps.
Import worktree.

Variables (env : Env) (m : Manager) (ticket baseBranch repo : string).
Hypothesis Hrepo : value git.GetRepoName env = Ok repo.

Let dir : string := filepath.Join [basePath m; repo; ticket].
Let fetch : list string := ["fetch"; "origin"; baseBranch].
Let add : list string := ["worktree"; "add"; dir; "-b"; ticket].

(** X2.  When the parent directory can be made, the target does not exist
    and [git worktree add] succeeds, create returns no error whether
    [git fetch] succeeded or not.  Its calls are, in this order: the
    repository lookup, [os.MkdirAll] of the parent of the target,
    [os.Stat] of the target, [git fetch origin] of the base branch and
    [git worktree add] of the target with a new branch named after the
    ticket.  It prints the progress lines, a warning exactly when the fetch
    failed, and the two success lines last. *)
Theorem Create_success :
  mkdir_all env (filepath.Dir dir) = None ->
  errorsIsNotExist (stat env dir) = true ->
  runErr (status (git_run env add)) = None ->
  returned (Create ticket baseBranch) m env = None
  /\ worldCalls (calls (Create ticket baseBranch) m env)
     = [EvExec revParse (git_run env revParse);
        EvMkdirAll (filepath.Dir dir) None;
        EvStat dir (stat env dir);
        EvExec fetch (git_run env fetch);
        EvExec add (git_run env add)]
  /\ stdoutLog (calls (Create ticket baseBranch) m env)
     = fetchingLine baseBranch
       :: match runErr (status (git_run env fetch)) with
          | Some e => [fetchWarning ("failed to fetch branch: " +:+ e)]
          | None => []
          end
       ++ creatingLine ticket :: successLines dir.
Proof.
  subst dir fetch add. intros Hmk Hst Hadd.
  destruct (GetRepoName_Ok _ _ Hrepo) as [Hrun ->].
  destruct (runErr (status (git_run env ["fetch"; "origin"; baseBranch]))) eqn:Hf;
    run_with ltac:(rewrite ?Hrun, ?Hmk, ?Hst, ?Hf, ?Hadd; cbn [negb]);
    repeat split.
Qed.

(** X3.  When the parent directory of the target cannot be made, create
    returns the failed-to-create-directory error with the text of the
    failure, and stops there: the target is not examined and no git command
    but the repository lookup is run. *)
Theorem Create_stops_when_parent_cannot_be_made (e : FsError) :
  mkdir_all env (filepath.Dir dir) = Some e ->
  returned (Create ticket baseBranch) m env
  = Some ("failed to create directory: " +:+ text e)
  /\ calls (Create ticket baseBranch) m env
     = [EvExec revParse (git_run env revParse);
        EvMkdirAll (filepath.Dir dir) (Some e)].
Proof.
  subst dir. intros Hmk.
  destruct (GetRepoName_Ok _ _ Hrepo) as [Hrun ->].
  run_with ltac:(rewrite ?Hrun, ?Hmk). split; reflexivity.
Qed.

(** X4.  When [git worktree add] fails, create returns the
    failed-to-create-worktree error, which holds what git wrote (its
    combined output) and the error of the run; the failed command is the
    last call, and the success lines are not printed. *)
Theorem Create_reports_git_output_when_add_fails (e : error) :
  mkdir_all env (filepath.Dir dir) = None ->
  errorsIsNotExist (stat env dir) = true ->
  runErr (status (git_run env add)) = Some e ->
  returned (Create ticket baseBranch) m env
  = Some ("failed to create worktree: " +:+ combined (git_run env add)
          +:+ ": " +:+ e)
  /\ last (calls (Create ticket baseBranch) m env)
     = Some (EvExec add (git_run env add))
  /\ stdoutLog (calls (Create ticket baseBranch) m env)
     = fetchingLine baseBranch
       :: match runErr (status (git_run env fetch)) with
          | Some e => [fetchWarning ("failed to fetch branch: " +:+ e)]
          | None => []
          end
       ++ [creatingLine ticket].
Proof.
  subst dir fetch add. intros Hmk Hst Hadd.
  destruct (GetRepoName_Ok _ _ Hrepo) as [Hrun ->].
  destruct (runErr (status (git_run env ["fetch"; "origin"; baseBranch]))) eqn:Hf;
    run_with ltac:(rewrite ?Hrun, ?Hmk, ?Hst, ?Hf, ?Hadd; cbn [negb]);
    repeat split.
Qed.

End CreateSteps.

Lemma Create_success_witness :
  returned (worktree.Create "T-9" "main") Sample.manager Sample.env = None
  /\ worldCalls (calls (worktree.Create "T-9" "main") Sample.manager Sample.env)
     = [EvExec revParse (Sample.ran ("/srv/git/repo" +:+ nl));
        EvMkdirAll "/home/u/worktrees/repo" None;
        EvStat "/home/u/worktrees/repo/T-9" (Some Sample.missing);
        EvExec ["fetch"; "origin"; "main"] (Sample.died 128 Sample.noOrigin);
        EvExec ["worktree"; "add"; "/home/u/worktrees/repo/T-9"; "-b"; "T-9"]
               (Sample.ran EmptyString)].
Proof.
  pose proof (Create_success Sample.env Sample.manager "T-9" "main" "repo"
                             eq_refl eq_refl eq_refl eq_refl) as (Hret & Hcalls & _).
  split; [exact Hret|exact Hcalls].
Defined.

Lemma Create_stops_when_parent_cannot_be_made_witness :
  let env := mkEnv Sample.git_run (Ok "/home/u") (fun _ => Some Sample.denied)
                   Sample.stat Sample.read_dir Sample.parse_base Sample.parse_d in
  returned (worktree.Create "T-9" "main") Sample.manager env
  = Some "failed to create directory: permission denied".
Proof.
  exact (proj1 (Create_stops_when_parent_cannot_be_made
                  (mkEnv Sample.git_run (Ok "/home/u") (fun _ => Some Sample.denied)
                         Sample.stat Sample.read_dir Sample.parse_base Sample.parse_d)
                  Sample.manager "T-9" "main" "repo" eq_refl Sample.denied eq_refl)).
Defined.

Lemma Create_reports_git_output_when_add_fails_witness :
  let git := fun args : list string =>
               if isPrefixOf ["worktree"; "add"] args
               then Sample.died 128 "fatal: a branch named 'T-9' already exists"
               else Sample.git_run args in
  let env := mkEnv git (Ok "/home/u") (fun _ => None)
                   Sample.stat Sample.read_dir Sample.parse_base Sample.parse_d in
  returned (worktree.Create "T-9" "main") Sample.manager env
  = Some "failed to create worktree: fatal: a branch named 'T-9' already exists: exit status 128".
Proof.
  exact (proj1 (Create_reports_git_output_when_add_fails
                  (mkEnv (fun args : list string =>
                            if isPrefixOf ["worktree"; "add"] args
                            then Sample.died 128 "fatal: a branch named 'T-9' already exists"
                            else Sample.git_run args)
                         (Ok "/home/u") (fun _ => None)
                         Sample.stat Sample.read_dir Sample.parse_base Sample.parse_d)
                  Sample.manager "T-9" "main" "repo" eq_refl
                  "exit status 128" eq_refl eq_refl eq_refl)).
Defined.

(* ===================================================================== *)
(** * The steps of delete *)
(* ===================================================================== *)

(** X5.  Without the delete-branch option, delete never runs
    [git branch], whatever the world answers. *)
Theorem Delete_keeps_branch_without_option env m ticket :
  ranGit ["branch"] (calls (worktree.Delete ticket false) m env) = false.
Proof. run_all; reflexivity. Qed.

Section DeleteSteps.
Import worktree.

Variables (env : Env) (m : Manager) (ticket repo : string).
Hypothesis Hrepo : value git.GetRepoName env = Ok repo.

Let dir : string := filepath.Join [basePath m; repo; ticket].
Let remove : list string := ["worktree"; "remove"; dir].
Let branchD : list string := ["branch"; "-D"; ticket].

(** X6.  When the worktree directory is there and the git commands
    succeed, delete returns no error.  Its calls are, in this order: the
    repository lookup, [os.Stat] of the worktree directory,
    [git worktree remove] of it and, with the delete-branch option only,
    [git branch -D] of the branch named after the ticket.  It prints the
    progress lines and the done line last. *)
Theorem Delete_success (deleteBranch : bool) :
  errorsIsNotExist (stat env dir) = false ->
  runErr (status (git_run env remove)) = None ->
  (deleteBranch = true -> runErr (status (git_run env branchD)) = None) ->
  returned (Delete ticket deleteBranch) m env = None
  /\ worldCalls (calls (Delete ticket deleteBranch) m env)
     = [EvExec revParse (git_run env revParse);
        EvStat dir (stat env dir);
        EvExec remove (git_run env remove)]
       ++ (if deleteBranch then [EvExec branchD (git_run env branchD)] else [])
  /\ stdoutLog (calls (Delete ticket deleteBranch) m env)
     = removingLine ticket
       :: (if deleteBranch then [deletingLine ticket] else [])
       ++ [doneLine ticket].
Proof.
  subst dir remove branchD. intros Hst Hrm Hbr.
  destruct (GetRepoName_Ok _ _ Hrepo) as [Hrun ->].
  destruct deleteBranch; [specialize (Hbr eq_refl)|clear Hbr];
    run_with ltac:(rewrite ?Hrun, ?Hst, ?Hrm, ?Hbr); repeat split.
Qed.

(** X7.  The existence check of delete stops on the not-exist answer of
    [os.Stat] only: [git worktree remove] is run exactly when [os.Stat]
    reports anything else, be it that the directory is there or that it
    could not be examined (a permission error, say). *)
Theorem Delete_removes_unless_not_exist (deleteBranch : bool) :
  ranGit ["worktree"; "remove"] (calls (Delete ticket deleteBranch) m env)
  = negb (errorsIsNotExist (stat env dir)).
Proof.
  subst dir.
  destruct (GetRepoName_Ok _ _ Hrepo) as [Hrun ->].
  destruct (errorsIsNotExist (stat env _)) eqn:Hst.
  - run_with ltac:(rewrite ?Hrun, ?Hst). reflexivity.
  - repeat (unfold_prog; rewrite ?Hrun, ?Hst; try next_answer); reflexivity.
Qed.

(** X8.  When [git worktree remove] fails, delete returns the
    failed-to-remove-worktree error, which holds what git wrote and the
    error of the run; the failed command is the last call, so the branch is
    kept even with the delete-branch option, and the done line is not
    printed. *)
Theorem Delete_stops_when_remove_fails (deleteBranch : bool) (e : error) :
  errorsIsNotExist (stat env dir) = false ->
  runErr (status (git_run env remove)) = Some e ->
  returned (Delete ticket deleteBranch) m env
  = Some ("failed to remove worktree: " +:+ combined (git_run env remove)
          +:+ ": " +:+ e)
  /\ last (calls (Delete ticket deleteBranch) m env)
     = Some (EvExec remove (git_run env remove))
  /\ ranGit ["branch"] (calls (Delete ticket deleteBranch) m env) = false
  /\ stdoutLog (calls (Delete ticket deleteBranch) m env) = [removingLine ticket].
Proof.
  subst dir remove. intros Hst Hrm.
  destruct (GetRepoName_Ok _ _ Hrepo) as [Hrun ->].
  run_with ltac:(rewrite ?Hrun, ?Hst, ?Hrm). repeat split.
Qed.

End DeleteSteps.

Lemma Delete_success_witness :
  let git := fun args : list string =>
               if isPrefixOf ["branch"] args then Sample.ran "Deleted branch T-1"
               else Sample.git_run args in
  let env := mkEnv git (Ok "/home/u") (fun _ => None)
                   Sample.stat Sample.read_dir Sample.parse_base Sample.parse_d in
  returned (worktree.Delete "T-1" true) Sample.manager env = None
  /\ stdoutLog (calls (worktree.Delete "T-1" true) Sample.manager env)
     = [removingLine "T-1"; deletingLine "T-1"; doneLine "T-1"].
Proof.
  cbv zeta.
  pose proof (Delete_success
                (mkEnv (fun args : list string =>
                          if isPrefixOf ["branch"] args
                          then Sample.ran "Deleted branch T-1"
                          else Sample.git_run args)
                       (Ok "/home/u") (fun _ => None)
                       Sample.stat Sample.read_dir Sample.parse_base Sample.parse_d)
                Sample.manager "T-1" "repo" eq_refl true eq_refl eq_refl
                (fun _ => eq_refl)) as (Hret & _ & Hout).
  split; [exact Hret|exact Hout].
Defined.

Lemma Delete_removes_unless_not_exist_witness :
  stat Sample.env "/home/u/worktrees/repo/locked" = Some Sample.denied
  /\ ranGit ["worktree"; "remove"]
            (calls (worktree.Delete "locked" false) Sample.manager Sample.env) = true.
Proof.
  split; [reflexivity|].
  exact (Delete_removes_unless_not_exist
           Sample.env Sample.manager "locked" "repo" eq_refl false).
Defined.

Lemma Delete_stops_when_remove_fails_witness :
  let git := fun args : list string =>
               if isPrefixOf ["worktree"; "remove"] args
               then Sample.died 128 "fatal: 'T-1' contains modified or untracked files"
               else Sample.git_run args in
  let env := mkEnv git (Ok "/home/u") (fun _ => None)
                   Sample.stat Sample.read_dir Sample.parse_base Sample.parse_d in
  returned (worktree.Delete "T-1" true) Sample.manager env
  = Some "failed to remove worktree: fatal: 'T-1' contains modified or untracked files: exit status 128"
  /\ ranGit ["branch"] (calls (worktree.Delete "T-1" true) Sample.manager env) = false.
Proof.
  cbv zeta.
  pose proof (Delete_stops_when_remove_fails
                (mkEnv (fun args : list string =>
                          if isPrefixOf ["worktree"; "remove"] args
                          then Sample.died 128
                                 "fatal: 'T-1' contains modified or untracked files"
                          else Sample.git_run args)
                       (Ok "/home/u") (fun _ => None)
                       Sample.stat Sample.read_dir Sample.parse_base Sample.parse_d)
                Sample.manager "T-1" "repo" eq_refl true "exit status 128"
                eq_refl eq_refl) as (Hret & _ & Hbr & _).
  split; [exact Hret|exact Hbr].
Defined.

(* ===================================================================== *)
(** * What list and get-path leave alone, and the edges of list *)
(* ===================================================================== *)

Lemma changesSomething_listEntry worktreeMap repoPath env entries :
  existsb changesSomething
          (loopEvents (worktree.listEntry worktreeMap repoPath) env entries) = false.
Proof.
  unfold loopEvents.
  induction entries as [|e entries IH]; [reflexivity|].
  cbn [flat_map]. unfold events at 1, worktree.listEntry at 1.
  destruct (IsDir e); exact IH.
Qed.

(** X9.  List and get-path change nothing, whatever the world answers:
    neither calls [os.MkdirAll], and the only git commands they run are
    [git rev-parse --show-toplevel] and [git worktree list]. *)
Theorem List_and_GetPath_change_nothing env m ticket :
  existsb changesSomething (calls worktree.List m env) = false
  /\ existsb changesSomething (calls (worktree.GetPath ticket) m env) = false.
Proof.
  split.
  - repeat (unfold_prog; rewrite ?forEach_run; try next_answer);
      rewrite ?app_nil_r; cbn [app existsb changesSomething Sample.sameArgs
                                   String.eqb Ascii.eqb Bool.eqb andb orb negb];
      rewrite ?changesSomething_listEntry; reflexivity.
  - run_all; reflexivity.
Qed.

Section ListEdges.
Import worktree.

Variables (env : Env) (m : Manager) (repo : string).
Hypothesis Hrepo : value git.GetRepoName env = Ok repo.

Let repoPath : string := filepath.Join [basePath m; repo].
Let worktreeList : list string := ["worktree"; "list"].


(** X11.  The two failures of list.  When [git worktree list] fails, list
    returns the error of the operation under a second
    failed-to-list-worktrees context, having touched no file and printed
    nothing.  When the directory cannot be read, list returns the
    failed-to-read-worktree-directory error after the header has been
    printed. *)
Theorem List_failures :
  (forall e,
      runErr (status (git_run env worktreeList)) = Some e ->
      returned List m env
      = Some ("failed to list worktrees: failed to list worktrees: " +:+ e)
      /\ calls List m env
         = [EvExec revParse (git_run env revParse);
            EvExec worktreeList (git_run env worktreeList)])
  /\ (forall worktrees e,
      value git.ListWorktrees env = Ok worktrees ->
      errorsIsNotExist (stat env repoPath) = false ->
      read_dir env repoPath = inr e ->
      returned List m env
      = Some ("failed to read worktree directory: " +:+ text e)
      /\ stdoutLog (calls List m env) = [listHeader repo]).
Proof.
  subst repoPath worktreeList.
  destruct (GetRepoName_Ok _ _ Hrepo) as [Hrun ->].
  split.
  - intros e Hl. run_with ltac:(rewrite ?Hrun, ?Hl). repeat split.
  - intros worktrees e Hlist Hst Hrd.
    destruct (ListWorktrees_Ok _ _ Hlist) as [Hl ->].
    run_with ltac:(rewrite ?Hrun, ?Hl, ?Hst, ?Hrd). repeat split.
Qed.

End ListEdges.


Lemma List_failures_witness :
  let env := mkEnv Sample.git_run (Ok "/home/u") (fun _ => None)
                   Sample.stat (fun _ => inr Sample.denied)
                   Sample.parse_base Sample.parse_d in
  returned worktree.List Sample.manager env
  = Some "failed to read worktree directory: permission denied"
  /\ stdoutLog (calls worktree.List Sample.manager env) = [listHeader "repo"].
Proof.
  cbv zeta.
  pose proof (List_failures
                (mkEnv Sample.git_run (Ok "/home/u") (fun _ => None)
                       Sample.stat (fun _ => inr Sample.denied)
                       Sample.parse_base Sample.parse_d)
                Sample.manager "repo" eq_refl) as [_ Hread].
  exact (Hread _ Sample.denied eq_refl eq_refl eq_refl).
Defined.
(* ===================================================================== *)
(** * The command line *)
(* ===================================================================== *)

Lemma isOneOf_false s l :
  main.isOneOf s l = false -> Forall (fun x => s <> x) l.
Proof.
  unfold main.isOneOf. induction l as [|x l IH]; cbn [existsb]; intros H.
  - constructor.
  - apply orb_false_elim in H as [Hx Hl]. constructor; [|now apply IH].
    now apply String.eqb_neq.
Qed.

Lemma no_alias cmdArg :
  main.isOneOf cmdArg commandNames = false ->
  main.commandAliases !! cmdArg = None.
Proof.
  intros H. apply isOneOf_false in H.
  apply not_elem_of_list_to_map_1. cbn [fmap list_fmap fst].
  intros Hin. rewrite List.Forall_forall in H.
  apply list_elem_of_In in Hin. cbn [In] in Hin.
  repeat match goal with
         | Hor : _ \/ _ |- _ => destruct Hor as [Hor|Hor]
         end;
    try (symmetry in Hin; revert Hin; apply H; cbn; tauto).
  destruct Hin.
Qed.

(** X12.  Unless its first argument is one of the eleven command words,
    [main] calls nothing outside the process.  Without an argument and for
    the help words it prints the usage and exits with 0; for the version
    words it prints the version line and exits with 0; for any other word
    it writes the unknown-command line with that word to standard error,
    prints the usage and exits with 1. *)
Theorem main_without_a_command osArgs env :
  let cmdArg := nth 1 osArgs EmptyString in
  main.isOneOf cmdArg commandNames = false ->
  main.main osArgs env
  = if (length osArgs <? 2) || main.isOneOf cmdArg helpNames
    then (0, usageEvents)
    else if main.isOneOf cmdArg versionNames
         then (0, [EvStdout versionLine])
         else (1, EvStderr (unknownLine cmdArg) :: usageEvents).
Proof.
  intros cmdArg Hcmd. unfold main.main. fold cmdArg.
  destruct (length osArgs <? 2); [reflexivity|]. cbn [orb].
  unfold helpNames, versionNames.
  destruct (main.isOneOf cmdArg ["help"; "--help"; "-h"]); [reflexivity|].
  destruct (main.isOneOf cmdArg ["version"; "--version"; "-v"]); [reflexivity|].
  rewrite (no_alias _ Hcmd).
  apply isOneOf_false in Hcmd. rewrite List.Forall_forall in Hcmd.
  assert (Hne : forall c, In c commandNames -> String.eqb cmdArg c = false).
  { intros c Hc. apply String.eqb_neq. now apply Hcmd. }
  unfold main.cmdCreate, main.cmdDelete, main.cmdList, main.cmdCD.
  rewrite !Hne by (cbn; tauto). reflexivity.
Qed.

Lemma main_without_a_command_witness :
  main.main ["go-worktree"; "destroy"; "T-1"] Sample.env
  = (1, EvStderr (unknownLine "destroy") :: usageEvents).
Proof.
  exact (main_without_a_command ["go-worktree"; "destroy"; "T-1"] Sample.env eq_refl).
Defined.

(** X13.  An alias is its command: whatever the program is called as, and
    whatever follows the command word, the process started with an alias
    does what the process started with the command the alias stands for
    does, call by call, and ends with the same status. *)
Theorem alias_is_its_command alias cmd :
  main.commandAliases !! alias = Some cmd ->
  forall prog prog' arguments env,
    main.main (prog :: alias :: arguments) env
    = main.main (prog' :: cmd :: arguments) env.
Proof.
  intros Hlook prog prog' arguments env.
  apply elem_of_list_to_map_2, list_elem_of_In in Hlook. cbn [In] in Hlook.
  repeat match goal with
         | Hor : _ \/ _ |- _ => destruct Hor as [Hor|Hor]
         end;
    try (injection Hlook as <- <-; reflexivity).
  destruct Hlook.
Qed.

Lemma alias_is_its_command_witness :
  main.main ["go-worktree"; "rm"; "T-1"] Sample.env
  = main.main ["/usr/local/bin/go-worktree"; "delete"; "T-1"] Sample.env.
Proof.
  exact (alias_is_its_command "rm" "delete" eq_refl
           "go-worktree" "/usr/local/bin/go-worktree" ["T-1"] Sample.env).
Defined.

(** X14.  A command that needs a ticket and gets none ends at once.  Called
    with nothing after the command word, create, delete, cd and their
    aliases write the ticket-required line to standard error and exit with
    1, without looking up the home directory, running git or touching a
    file.  (For create and delete this is so when the flag set finds no
    positional argument in an empty argument list.) *)
Theorem ticket_required prog word env base d :
  In word ["create"; "new"; "add"; "delete"; "rm"; "cleanup"; "remove";
           "cd"; "switch"] ->
  parse_base env [] = ParseOk base [] ->
  parse_d env [] = ParseOk d [] ->
  main.main [prog; word] env = (1, [EvStderr ticketRequiredLine]).
Proof.
  intros Hword Hbase Hd. cbn [In] in Hword.
  repeat match goal with
         | Hor : _ \/ _ |- _ => destruct Hor as [Hor|Hor]
         end;
    first [subst word | destruct Hword].
  1-3: match goal with
       | |- main.main ?args ?e = _ =>
         change (main.main args e) with (main.handleCreate args e)
       end;
       unfold_main; cbn [skipn]; rewrite Hbase; reflexivity.
  1-4: match goal with
       | |- main.main ?args ?e = _ =>
         change (main.main args e) with (main.handleDelete args e)
       end;
       unfold_main; cbn [skipn]; rewrite Hd; reflexivity.
  all: reflexivity.
Qed.

Lemma ticket_required_witness :
  main.main ["go-worktree"; "rm"] Sample.env = (1, [EvStderr ticketRequiredLine]).
Proof.
  refine (ticket_required "go-worktree" "rm" Sample.env "main" false _ eq_refl eq_refl).
  cbn. tauto.
Defined.

(** X16.  The base branch of create.  When the ticket is followed by a
    second positional argument, that argument is the base branch and the
    value of the [-base] flag is not used; otherwise the flag's value is.
    Create fetches no other branch: every [git fetch origin] of the command
    is of that base branch. *)
Theorem handleCreate_base_branch osArgs env base ticket more :
  parse_base env (skipn 2 osArgs) = ParseOk base (ticket :: more) ->
  let baseBranch := match more with b :: _ => b | [] => base end in
  events (main.handleCreate osArgs) env
  = events worktree.NewManager env
    ++ calls (worktree.Create ticket baseBranch) (value worktree.NewManager env) env
    ++ match returned (worktree.Create ticket baseBranch)
                      (value worktree.NewManager env) env with
       | Some err => [EvStderr (errorReport err)]
       | None => []
       end
  /\ Forall (fun b => b = baseBranch) (fetched (events (main.handleCreate osArgs) env)).
Proof.
  intros Hparse baseBranch.
  unfold main.handleCreate, main.parseBase.
  cbv beta iota zeta delta [io_bind events value returned calls fst snd].
  rewrite Hparse. cbn [main.flagExit].
  destruct more as [|b more]; subst baseBranch;
    cbn [length Nat.ltb Nat.leb nth]; cbv iota.
  all: split;
    repeat (unfold_main; try next_answer); rewrite ?app_nil_r;
    cbn [app fetched]; first [reflexivity | repeat constructor].
Qed.

Lemma handleCreate_base_branch_witness :
  fetched (events (main.handleCreate
                     ["go-worktree"; "create"; "-base"; "release"; "T-9"; "develop"])
                  Sample.env)
  = ["develop"].
Proof.
  pose proof (handleCreate_base_branch
                ["go-worktree"; "create"; "-base"; "release"; "T-9"; "develop"]
                Sample.env "release" "T-9" ["develop"] eq_refl) as [Hev _].
  cbv zeta in Hev. rewrite Hev. reflexivity.
Defined.

(** X17.  The option of delete.  Delete is called with the first positional
    argument as ticket and with the value of the [-d] flag; what follows
    the ticket is not looked at.  So unless the flag set reports [-d], the
    command runs no [git branch]: a [-d] the flag set leaves among the
    positional arguments deletes no branch. *)
Theorem handleDelete_option osArgs env d ticket more :
  parse_d env (skipn 2 osArgs) = ParseOk d (ticket :: more) ->
  events (main.handleDelete osArgs) env
  = events worktree.NewManager env
    ++ calls (worktree.Delete ticket d) (value worktree.NewManager env) env
    ++ match returned (worktree.Delete ticket d)
                      (value worktree.NewManager env) env with
       | Some err => [EvStderr (errorReport err)]
       | None => []
       end
  /\ (d = false -> ranGit ["branch"] (events (main.handleDelete osArgs) env) = false).
Proof.
  intros Hparse.
  unfold main.handleDelete, main.parseD.
  cbv beta iota zeta delta [io_bind events value returned calls fst snd].
  rewrite Hparse. cbn [main.flagExit]. cbn [length Nat.ltb Nat.leb nth]. cbv iota.
  split; [|intros ->];
    repeat (unfold_main; try next_answer); rewrite ?app_nil_r; reflexivity.
Qed.

Lemma handleDelete_option_witness :
  ranGit ["branch"]
         (events (main.handleDelete ["go-worktree"; "delete"; "T-1"; "-d"])
                 Sample.env) = false.
Proof.
  exact (proj2 (handleDelete_option ["go-worktree"; "delete"; "T-1"; "-d"]
                  Sample.env false "T-1" ["-d"] eq_refl) eq_refl).
Defined.
(* ===================================================================== *)
(** * The directory of a ticket *)
(* ===================================================================== *)
Section TicketPaths.
Import filepath.

Lemma existsb_hasSep p :
  existsb (Ascii.eqb Separator) (list_ascii_of_string p) = hasSep p.
Proof.
  induction p as [|c p IH]; [reflexivity|].
  cbn [list_ascii_of_string existsb hasSep]. now rewrite IH, Ascii.eqb_sym.
Qed.

Lemma hasSep_app a t : hasSep (a +:+ String Separator t) = true.
Proof.
  induction a as [|c a IH].
  - reflexivity.
  - change (String c a +:+ String Separator t) with (String c (a +:+ String Separator t)).
    cbn [hasSep]. rewrite IH. apply orb_true_r.
Qed.

Lemma afterLastSep_hasSep p : hasSep (afterLastSep p) = false.
Proof.
  induction p as [|c p IH]; [reflexivity|].
  cbn [afterLastSep]. rewrite existsb_hasSep.
  destruct (hasSep p) eqn:Hp; [exact IH|].
  destruct (Ascii.eqb c Separator) eqn:Hc; [exact Hp|].
  cbn [hasSep]. now rewrite Hc, Hp.
Qed.

Lemma afterLastSep_one t : hasSep t = false -> afterLastSep t = t.
Proof.
  destruct t as [|c t]; [reflexivity|]. cbn [hasSep afterLastSep].
  intros H. apply orb_false_elim in H as [Hc Ht].
  now rewrite existsb_hasSep, Ht, Hc.
Qed.

Lemma afterLastSep_app a t :
  hasSep t = false -> afterLastSep (a +:+ String Separator t) = t.
Proof.
  intros Ht. induction a as [|c a IH].
  - change (EmptyString +:+ String Separator t) with (String Separator t).
    cbn [afterLastSep]. now rewrite existsb_hasSep, Ht.
  - change (String c a +:+ String Separator t) with (String c (a +:+ String Separator t)).
    cbn [afterLastSep]. now rewrite existsb_hasSep, hasSep_app.
Qed.

Lemma upToLastSep_one t : hasSep t = false -> upToLastSep t = EmptyString.
Proof.
  induction t as [|c t IH]; [reflexivity|]. cbn [hasSep upToLastSep].
  intros H. apply orb_false_elim in H as [Hc Ht].
  now rewrite (IH Ht), Hc.
Qed.

Lemma upToLastSep_app a t :
  hasSep t = false ->
  upToLastSep (a +:+ String Separator t) = a +:+ String Separator EmptyString.
Proof.
  intros Ht. induction a as [|c a IH].
  - change (EmptyString +:+ String Separator t) with (String Separator t).
    cbn [upToLastSep]. now rewrite (upToLastSep_one _ Ht).
  - change (String c a +:+ String Separator t) with (String c (a +:+ String Separator t)).
    cbn [upToLastSep]. rewrite IH.
    destruct a; reflexivity.
Qed.

Lemma TrimRight_one t :
  t <> EmptyString -> hasSep t = false -> strings.TrimRight t "/" = t.
Proof.
  induction t as [|c t IH]; [congruence|]. intros _ H.
  cbn [hasSep] in H. apply orb_false_elim in H as [Hc Ht].
  cbn [strings.TrimRight]. destruct t as [|c' t'].
  - cbn [strings.TrimRight strings.inCutset].
    change "/"%char with Separator. now rewrite Hc.
  - rewrite IH by (discriminate || exact Ht). reflexivity.
Qed.

Lemma TrimRight_app a t :
  strings.TrimRight t "/" <> EmptyString ->
  strings.TrimRight (a +:+ t) "/" = a +:+ strings.TrimRight t "/".
Proof.
  intros Ht. induction a as [|c a IH]; [reflexivity|].
  change (String c a +:+ t) with (String c (a +:+ t)).
  cbn [strings.TrimRight]. rewrite IH.
  destruct a as [|c' a'].
  - change (EmptyString +:+ strings.TrimRight t "/") with (strings.TrimRight t "/").
    destruct (strings.TrimRight t "/"); [congruence|reflexivity].
  - reflexivity.
Qed.

(** ** The shape of a joined path *)

Lemma Clean_idem q : Clean (Clean q) = Clean q.
Proof.
  destruct q as [|ch q]; [reflexivity|].
  rewrite (Clean_render ch q).
  pose proof (elemsOf_cleanElems (String ch q)) as Hce.
  rewrite <- (rev_involutive (elemsOf (String ch q))) in Hce.
  destruct (renderPath_shape _ _ Hce) as (c' & s & Heq & Hc' & Hfold).
  rewrite Heq at 1. rewrite Clean_render. unfold elemsOf.
  change (rootedPath (String c' s)) with (Ascii.eqb c' Separator).
  rewrite Hc', Hfold, rev_involutive. reflexivity.
Qed.

Lemma Clean_trailing_sep p :
  p <> EmptyString -> Clean (p +:+ String Separator EmptyString) = Clean p.
Proof.
  destruct p as [|c p]; [congruence|]. intros _.
  change (String c p +:+ String Separator EmptyString)
    with (String c (p +:+ String Separator EmptyString)).
  rewrite !Clean_render. unfold elemsOf.
  change (rootedPath (String c (p +:+ String Separator EmptyString)))
    with (rootedPath (String c p)).
  change (String c (p +:+ String Separator EmptyString))
    with (String c p +:+ String Separator EmptyString).
  rewrite Split_app_sep, fold_left_app. reflexivity.
Qed.

Lemma elemsOf_child q t :
  q <> EmptyString -> properElem t ->
  rootedPath (q +:+ String Separator t) = rootedPath q
  /\ elemsOf (q +:+ String Separator t) = t :: elemsOf q.
Proof.
  destruct q as [|c q]; [congruence|]. intros _ Ht.
  split; [reflexivity|]. unfold elemsOf.
  change (rootedPath (String c q +:+ String Separator t))
    with (rootedPath (String c q)).
  destruct Ht as (Hne & Hdot & Hdd & Hsep).
  rewrite Split_app_sep, fold_left_app, (Split_one _ Hsep). cbn [fold_left].
  apply cleanStep_proper. repeat split; assumption.
Qed.

Lemma strings_Join_snoc els t :
  els <> [] ->
  strings.Join (els ++ [t]) "/" = strings.Join els "/" +:+ String Separator t.
Proof.
  induction els as [|e els IH]; [congruence|]. intros _.
  destruct els as [|e' els']; [reflexivity|].
  change (strings.Join ((e :: e' :: els') ++ [t]) "/")
    with (e +:+ String Separator (strings.Join ((e' :: els') ++ [t]) "/")).
  rewrite IH by discriminate.
  change (strings.Join (e :: e' :: els') "/")
    with (e +:+ String Separator (strings.Join (e' :: els') "/")).
  rewrite append_assoc. reflexivity.
Qed.

(** A proper element joined to a clean path: the path that reads the
    clean path, a separator and the element, but for the root and the
    current directory, which bring no separator of their own. *)
Lemma renderPath_child rooted els t :
  cleanElems rooted (rev els) -> t <> EmptyString ->
  renderPath rooted (els ++ [t])
  = match els with
    | [] => if rooted then String Separator t else t
    | _ => renderPath rooted els +:+ String Separator t
    end.
Proof.
  intros Hce Ht. destruct els as [|e els].
  - unfold renderPath. cbn [app strings.Join].
    destruct rooted; [reflexivity|]. destruct t; [congruence|reflexivity].
  - pose proof (cleanElems_head _ _ Hce) as Hhead.
    apply List.Forall_rev in Hhead. rewrite rev_involutive in Hhead.
    inversion Hhead as [|? ? (c & e1 & -> & Hc) _]; subst.
    unfold renderPath. rewrite strings_Join_snoc by discriminate.
    destruct (Join_head (String c e1) els c e1 eq_refl) as [s ->].
    destruct rooted; reflexivity.
Qed.

Lemma Join_child q t :
  q <> EmptyString -> properElem t ->
  Join [Clean q; t]
  = renderPath (rootedPath q) (rev (elemsOf q) ++ [t]).
Proof.
  intros Hq Ht. pose proof (Clean_not_empty q) as Hne.
  cbn [Join]. destruct (Clean q) as [|ch cq] eqn:Hcq; [congruence|].
  rewrite <- Hcq. cbn [strings.Join].
  change (Clean q +:+ "/" +:+ t) with (Clean q +:+ String Separator t).
  rewrite Clean_before_join by exact Hq.
  destruct (elemsOf_child q t Hq Ht) as [Hr He].
  destruct q as [|c q]; [congruence|].
  change (String c q +:+ String Separator t)
    with (String c (q +:+ String Separator t)) in *.
  rewrite Clean_render, Hr, He. reflexivity.
Qed.

Lemma Dir_child q t :
  q <> EmptyString -> properElem t -> Dir (Join [Clean q; t]) = Clean q.
Proof.
  intros Hq Ht. rewrite (Join_child _ _ Hq Ht).
  pose proof (elemsOf_cleanElems q) as Hce.
  rewrite <- (rev_involutive (elemsOf q)) in Hce.
  destruct Ht as (Hne & _ & _ & Hsep).
  rewrite (renderPath_child _ _ _ Hce Hne).
  assert (Hclean : Clean q = renderPath (rootedPath q) (rev (elemsOf q))).
  { destruct q; [congruence|apply Clean_render]. }
  unfold Dir. destruct (rev (elemsOf q)) as [|e els] eqn:Hels.
  - rewrite Hclean. destruct (rootedPath q).
    + change (String Separator t) with (EmptyString +:+ String Separator t).
      rewrite (upToLastSep_app _ _ Hsep). reflexivity.
    + rewrite (upToLastSep_one _ Hsep). reflexivity.
  - rewrite <- Hclean, (upToLastSep_app _ _ Hsep).
    rewrite Clean_trailing_sep by apply Clean_not_empty.
    apply Clean_idem.
Qed.

Lemma Base_child q t :
  q <> EmptyString -> properElem t -> Base (Join [Clean q; t]) = t.
Proof.
  intros Hq Ht. rewrite (Join_child _ _ Hq Ht).
  pose proof (elemsOf_cleanElems q) as Hce.
  rewrite <- (rev_involutive (elemsOf q)) in Hce.
  destruct Ht as (Hne & _ & _ & Hsep).
  rewrite (renderPath_child _ _ _ Hce Hne).
  pose proof (TrimRight_one _ Hne Hsep) as Htrim.
  assert (Hend : forall a,
             Base (a +:+ String Separator t) = t).
  { intros a. unfold Base.
    destruct (a +:+ String Separator t) eqn:Hx.
    { destruct a; discriminate. }
    rewrite <- Hx.
    change (a +:+ String Separator t)
      with (a +:+ String Separator EmptyString +:+ t) at 1.
    rewrite <- append_assoc, TrimRight_app, Htrim, append_assoc
      by (rewrite Htrim; exact Hne).
    change (a +:+ String Separator EmptyString +:+ t)
      with (a +:+ String Separator t).
    rewrite (afterLastSep_app _ _ Hsep). destruct t; [congruence|reflexivity]. }
  destruct (rev (elemsOf q)) as [|e els].
  - destruct (rootedPath q).
    + exact (Hend EmptyString).
    + unfold Base. destruct t as [|c t]; [congruence|].
      rewrite Htrim, (afterLastSep_one _ Hsep). reflexivity.
  - apply Hend.
Qed.

Lemma Join_two_clean a b :
  b <> EmptyString ->
  exists q, q <> EmptyString /\ Join [a; b] = Clean q.
Proof.
  intros Hb. destruct a as [|ca a].
  - exists b. split; [exact Hb|]. destruct b; [congruence|reflexivity].
  - exists (String ca a +:+ String Separator b). split; [discriminate|reflexivity].
Qed.

Lemma Base_not_empty p : Base p <> EmptyString.
Proof.
  unfold Base. destruct p; [discriminate|].
  destruct (afterLastSep _); discriminate.
Qed.

Lemma Base_one_element p : Base p = "/" \/ hasSep (Base p) = false.
Proof.
  unfold Base. destruct p as [|c p]; [now right|].
  destruct (afterLastSep _) eqn:H; [now left|].
  right. rewrite <- H. apply afterLastSep_hasSep.
Qed.

Lemma Join_clean a b : b <> EmptyString -> Clean (Join [a; b]) = Join [a; b].
Proof.
  intros Hb. destruct (Join_two_clean a b Hb) as (q & _ & ->). apply Clean_idem.
Qed.

(** The path of a ticket below a repository name: its parent is the join
    of the names before the ticket, its last element the ticket. *)
Lemma Join_three_child a b t :
  b <> EmptyString -> properElem t ->
  Dir (Join [a; b; t]) = Join [a; b] /\ Base (Join [a; b; t]) = t.
Proof.
  intros Hb Ht. rewrite <- Join_twice.
  destruct (Join_two_clean a b Hb) as (q & Hq & ->).
  split; [now apply Dir_child|now apply Base_child].
Qed.

Lemma child_not_short q t :
  q <> EmptyString ->
  q +:+ String Separator t <> "/" /\ q +:+ String Separator t <> ".".
Proof.
  destruct q as [|c q]; [congruence|]. intros _.
  change (String c q +:+ String Separator t) with (String c (q +:+ String Separator t)).
  split; intros H; injection H as _ H; destruct q; discriminate.
Qed.

(** Below a clean path other than the root and the current directory, the
    path of a proper element reads: the path, a separator, the element. *)
Lemma Join_literal q t :
  Clean q = q -> q <> "/" -> q <> "." -> properElem t ->
  Join [q; t] = q +:+ String Separator t.
Proof.
  intros Hclean Hroot Hdot Ht.
  assert (Hq : q <> EmptyString).
  { rewrite <- Hclean. apply Clean_not_empty. }
  rewrite <- Hclean at 1. rewrite (Join_child _ _ Hq Ht).
  pose proof (elemsOf_cleanElems q) as Hce.
  rewrite <- (rev_involutive (elemsOf q)) in Hce.
  rewrite (renderPath_child _ _ _ Hce (proj1 Ht)).
  assert (Hrender : q = renderPath (rootedPath q) (rev (elemsOf q))).
  { rewrite <- Hclean at 1. destruct q; [congruence|apply Clean_render]. }
  destruct (rev (elemsOf q)) as [|e els].
  - exfalso. unfold renderPath in Hrender. cbn [strings.Join] in Hrender.
    destruct (rootedPath q); [now apply Hroot|now apply Hdot].
  - rewrite <- Hrender. reflexivity.
Qed.

End TicketPaths.

(** X18.  The name of the repository is never empty, and it is one path
    element: the root, or a name without separator. *)
Theorem GetRepoName_is_one_element env repo :
  value git.GetRepoName env = Ok repo ->
  repo <> EmptyString /\ (repo = "/" \/ hasSep repo = false).
Proof.
  intros H. destruct (GetRepoName_Ok _ _ H) as [_ ->].
  split; [apply Base_not_empty|apply Base_one_element].
Qed.

Lemma GetRepoName_is_one_element_witness :
  "repo" <> EmptyString /\ ("repo" = "/" \/ hasSep "repo" = false).
Proof.
  exact (GetRepoName_is_one_element Sample.env "repo" eq_refl).
Defined.

(** X19.  The directory of a ticket is a child of the directory of the
    repository's worktrees.  For a ticket that is a proper path element
    (not empty, not [.] or [..], without separator), the parent of the
    ticket's path, which create makes, is the join of the base path and the
    repository name, which list reads; and the last element of the
    ticket's path is the ticket, the name list shows it under. *)
Theorem ticket_directory_is_a_child env m ticket repo :
  value git.GetRepoName env = Ok repo ->
  properElem ticket ->
  let dir := filepath.Join [worktree.basePath m; repo; ticket] in
  filepath.Dir dir = filepath.Join [worktree.basePath m; repo]
  /\ filepath.Base dir = ticket.
Proof.
  intros Hrepo Ht dir. subst dir.
  destruct (GetRepoName_Ok _ _ Hrepo) as [_ ->].
  apply Join_three_child; [apply Base_not_empty|exact Ht].
Qed.

Lemma ticket_directory_is_a_child_witness :
  filepath.Dir "/home/u/worktrees/repo/T-1" = "/home/u/worktrees/repo"
  /\ filepath.Base "/home/u/worktrees/repo/T-1" = "T-1".
Proof.
  refine (ticket_directory_is_a_child Sample.env Sample.manager "T-1" "repo"
            eq_refl _).
  repeat split; try reflexivity. discriminate.
Defined.

(** X20.  Two tickets never share a directory: inside a repository,
    get-path gives different tickets different paths, for tickets that are
    proper path elements. *)
Theorem tickets_have_their_own_directory env m repo ticket1 ticket2 :
  value git.GetRepoName env = Ok repo ->
  properElem ticket1 -> properElem ticket2 ->
  ticket1 <> ticket2 ->
  returned (worktree.GetPath ticket1) m env
  <> returned (worktree.GetPath ticket2) m env.
Proof.
  intros Hrepo Ht1 Ht2 Hne Heq.
  destruct (GetRepoName_Ok _ _ Hrepo) as [Hrun ->].
  unfold_prog_in Heq. rewrite Hrun in Heq. unfold_prog_in Heq.
  injection Heq as Heq.
  pose proof (Base_not_empty
                (strings.TrimSpace
                   (stdout (git_run env ["rev-parse"; "--show-toplevel"])))) as Hb.
  destruct (Join_three_child (worktree.basePath m) _ _ Hb Ht1) as [_ Hb1].
  destruct (Join_three_child (worktree.basePath m) _ _ Hb Ht2) as [_ Hb2].
  apply Hne. rewrite <- Hb1, <- Hb2. f_equal. exact Heq.
Qed.

Lemma tickets_have_their_own_directory_witness :
  returned (worktree.GetPath "T-1") Sample.manager Sample.env
  <> returned (worktree.GetPath "T-2") Sample.manager Sample.env.
Proof.
  refine (tickets_have_their_own_directory Sample.env Sample.manager "repo"
            "T-1" "T-2" eq_refl _ _ _);
    repeat split; try reflexivity; discriminate.
Defined.

(** X21.  Where a worktree lives.  For a home directory that is a clean
    path other than the root and the current directory, a repository name
    and a ticket that are proper path elements, the manager the commands
    make gives the ticket the path
    [<home>/worktrees/<repository>/<ticket>]. *)
Theorem path_of_a_ticket env home repo ticket :
  home_dir env = Ok home ->
  filepath.Clean home = home -> home <> "/" -> home <> "." ->
  value git.GetRepoName env = Ok repo ->
  properElem repo -> properElem ticket ->
  returned (worktree.GetPath ticket) (value worktree.NewManager env) env
  = Ok (home +:+ "/worktrees/" +:+ repo +:+ "/" +:+ ticket).
Proof.
  intros Hhome Hclean Hroot Hdot Hrepo Hr Ht.
  destruct (GetRepoName_Ok _ _ Hrepo) as [Hrun Hname].
  assert (Hw : properElem "worktrees").
  { repeat split; try reflexivity. discriminate. }
  assert (Hh : home <> EmptyString).
  { rewrite <- Hclean. apply Clean_not_empty. }
  pose proof (Join_literal home "worktrees" Hclean Hroot Hdot Hw) as Hbase.
  assert (Hdir : filepath.Join [filepath.Join [home; "worktrees"]; repo]
                 = home +:+ "/worktrees" +:+ "/" +:+ repo).
  { rewrite Join_literal; [rewrite Hbase, append_assoc; reflexivity| | | |exact Hr].
    - apply Join_clean. discriminate.
    - rewrite Hbase. now apply child_not_short.
    - rewrite Hbase. now apply child_not_short. }
  assert (Hpath : filepath.Join [filepath.Join [home; "worktrees"]; repo; ticket]
                  = home +:+ "/worktrees/" +:+ repo +:+ "/" +:+ ticket).
  { rewrite <- Join_twice, Join_literal; [| | | |exact Ht].
    - rewrite Hdir, !append_assoc. reflexivity.
    - apply Join_clean. exact (proj1 Hr).
    - rewrite Hdir.
      change (home +:+ "/worktrees" +:+ "/" +:+ repo)
        with (home +:+ String filepath.Separator ("worktrees" +:+ "/" +:+ repo)).
      now apply child_not_short.
    - rewrite Hdir.
      change (home +:+ "/worktrees" +:+ "/" +:+ repo)
        with (home +:+ String filepath.Separator ("worktrees" +:+ "/" +:+ repo)).
      now apply child_not_short. }
  unfold_prog. rewrite Hhome. unfold_prog. rewrite Hrun. unfold_prog.
  cbn [worktree.basePath]. rewrite <- Hname, Hpath. reflexivity.
Qed.

Lemma path_of_a_ticket_witness :
  returned (worktree.GetPath "T-1") (value worktree.NewManager Sample.env) Sample.env
  = Ok "/home/u/worktrees/repo/T-1".
Proof.
  refine (path_of_a_ticket Sample.env "/home/u" "repo" "T-1"
            eq_refl eq_refl _ _ eq_refl _ _);
    repeat split; try reflexivity; discriminate.
Defined.
(* ===================================================================== *)
(** * Reading back a listing *)
(* ===================================================================== *)
Section ReadingBack.
Import strings.

Lemma allBytes_app p a b :
  allBytes p (a +:+ b) = allBytes p a && allBytes p b.
Proof.
  induction a as [|c a IH]; [reflexivity|].
  change (String c a +:+ b) with (String c (a +:+ b)).
  cbn [allBytes]. now rewrite IH, andb_assoc.
Qed.

Lemma allBytes_impl (p q : ascii -> bool) s :
  (forall c, p c = true -> q c = true) ->
  allBytes p s = true -> allBytes q s = true.
Proof.
  intros Hpq. induction s as [|c s IH]; [reflexivity|].
  cbn [allBytes]. intros H. apply andb_prop in H as [Hc Hs].
  now rewrite (Hpq _ Hc), IH.
Qed.

Lemma allBytes_spaces p n : p " "%char = true -> allBytes p (spaces n) = true.
Proof.
  intros H. induction n as [|n IH]; [reflexivity|]. cbn. now rewrite H, IH.
Qed.

(** ** White space and what follows it *)

Lemma spaceWidth_space c s : asciiSpace c = true -> spaceWidth (String c s) = 1.
Proof. intros H. unfold spaceWidth. now rewrite H. Qed.

(** At an ASCII byte a white-space rune starts only if the byte is one. *)
Lemma spaceWidth_ascii c s :
  isAscii c = true ->
  spaceWidth (String c s) = if asciiSpace c then 1 else 0.
Proof.
  intros H. destruct c as [[] [] [] [] [] [] [] []];
    try discriminate H; reflexivity.
Qed.

(** Whether a white-space rune starts a text does not depend on what
    follows the text, when that is nothing or starts with an ASCII byte. *)
Lemma spaceWidth_app c s rest :
  startsAscii rest = true ->
  spaceWidth (String c s +:+ rest) = spaceWidth (String c s).
Proof.
  intros Hrest.
  change (String c s +:+ rest) with (String c (s +:+ rest)).
  unfold spaceWidth. destruct (asciiSpace c); [reflexivity|].
  destruct rest as [|a r].
  { assert (Hnil : s +:+ EmptyString = s).
    { clear. induction s as [|x s IH]; [reflexivity|].
      change (String x s +:+ EmptyString) with (String x (s +:+ EmptyString)).
      now rewrite IH. }
    now rewrite Hnil. }
  cbn [startsAscii] in Hrest. unfold isAscii in Hrest.
  apply N.ltb_lt in Hrest.
  assert (Hne : forall k, (128 <= k)%N -> N.eqb (byte a) k = false).
  { intros k Hk. apply N.eqb_neq. lia. }
  assert (Hlow : N.leb 0x80 (byte a) = false).
  { apply N.leb_gt. exact Hrest. }
  pose proof (Hne 0x85%N ltac:(lia)) as H85.
  pose proof (Hne 0xA0%N ltac:(lia)) as HA0.
  pose proof (Hne 0x9A%N ltac:(lia)) as H9A.
  pose proof (Hne 0x80%N ltac:(lia)) as H80.
  pose proof (Hne 0x81%N ltac:(lia)) as H81.
  pose proof (Hne 0x9F%N ltac:(lia)) as H9F.
  pose proof (Hne 0xA8%N ltac:(lia)) as HA8.
  pose proof (Hne 0xA9%N ltac:(lia)) as HA9.
  pose proof (Hne 0xAF%N ltac:(lia)) as HAF.
  destruct (byte c) as [|p]; [reflexivity|].
  do 8 (try destruct p as [p|p|]); try reflexivity;
    destruct s as [|c2 [|c3 s3]];
    cbv beta iota delta [String.append];
    try reflexivity;
    try (destruct r as [|a2 r]);
    rewrite ?H85, ?HA0, ?H9A, ?H80, ?H81, ?H9F, ?HA8, ?HA9, ?HAF, ?Hlow;
    cbn [andb orb];
    rewrite ?andb_false_r; cbn [andb orb];
    repeat match goal with
           | |- context [if ?b then _ else _] => destruct b
           end;
    reflexivity.
Qed.

Lemma spaceFree_notSpace s : spaceFree s = true -> allBytes notSpaceByte s = true.
Proof.
  induction s as [|c s IH]; [reflexivity|].
  cbn [spaceFree allBytes]. intros H. apply andb_prop in H as [Hw Hs].
  rewrite (IH Hs), andb_true_r. unfold notSpaceByte.
  destruct (asciiSpace c) eqn:Hc; [|reflexivity].
  rewrite (spaceWidth_space _ _ Hc) in Hw. discriminate.
Qed.

Lemma spaceFree_asciiSpaced s : spaceFree s = true -> asciiSpaced s = true.
Proof.
  intros H. pose proof (spaceFree_notSpace _ H) as Hn.
  induction s as [|c s IH]; [reflexivity|].
  cbn [spaceFree] in H. apply andb_prop in H as [Hw Hs].
  cbn [allBytes] in Hn. apply andb_prop in Hn as [Hc Hn].
  unfold notSpaceByte in Hc. apply negb_true_iff in Hc.
  cbn [asciiSpaced]. rewrite Hc, Hw. exact (IH Hs Hn).
Qed.

Lemma asciiSpaced_app a b :
  asciiSpaced a = true -> asciiSpaced b = true -> startsAscii b = true ->
  asciiSpaced (a +:+ b) = true.
Proof.
  intros Ha Hb Hstart. induction a as [|c a IH]; [exact Hb|].
  cbn [asciiSpaced] in Ha. apply andb_prop in Ha as [Hw Ha].
  change (String c a +:+ b) with (String c (a +:+ b)).
  cbn [asciiSpaced]. rewrite (IH Ha), andb_true_r.
  change (String c (a +:+ b)) with (String c a +:+ b).
  now rewrite (spaceWidth_app _ _ _ Hstart).
Qed.

Lemma asciiSpaced_after_ascii a b :
  allBytes isAscii a = true -> asciiSpaced b = true ->
  asciiSpaced (a +:+ b) = true.
Proof.
  intros Ha Hb. induction a as [|c a IH]; [exact Hb|].
  cbn [allBytes] in Ha. apply andb_prop in Ha as [Hc Ha].
  change (String c a +:+ b) with (String c (a +:+ b)).
  cbn [asciiSpaced]. rewrite (IH Ha), andb_true_r.
  rewrite (spaceWidth_ascii _ _ Hc). apply Nat.eqb_refl.
Qed.

(** ** The chunks of a text with ASCII white space only *)

Lemma substring_0_0 s : substring 0 0 s = EmptyString.
Proof. destruct s; reflexivity. Qed.

Lemma chunks_byteChunks a : asciiSpaced a = true -> chunks a = byteChunks a.
Proof.
  unfold chunks. induction a as [|c a IH]; [reflexivity|].
  cbn [asciiSpaced]. intros H. apply andb_prop in H as [Hw Ha].
  apply Nat.eqb_eq in Hw.
  cbn [chunksFrom byteChunks]. rewrite Hw.
  destruct (asciiSpace c).
  - cbn [substring]. now rewrite substring_0_0, (IH Ha).
  - now rewrite (IH Ha).
Qed.

Lemma byteChunks_app a b : byteChunks (a +:+ b) = byteChunks a ++ byteChunks b.
Proof.
  induction a as [|c a IH]; [reflexivity|].
  change (String c a +:+ b) with (String c (a +:+ b)).
  cbn [byteChunks app]. now rewrite IH.
Qed.

Lemma unchunk_byteChunks a : unchunk (byteChunks a) = a.
Proof.
  induction a as [|c a IH]; [reflexivity|].
  cbn [byteChunks]. unfold unchunk in *. cbn [fold_right bytes].
  rewrite IH. reflexivity.
Qed.

(** ** [TrimSpace] of a text that ends with a newline *)

Lemma TrimSpace_newline c body d :
  asciiSpace c = false -> asciiSpace d = false ->
  let text := String c (body +:+ String d EmptyString) in
  asciiSpaced text = true ->
  TrimSpace (text +:+ nl) = text.
Proof.
  intros Hc Hd text Htext.
  assert (Hsimple : asciiSpaced (text +:+ nl) = true).
  { apply asciiSpaced_app; [exact Htext|reflexivity|reflexivity]. }
  unfold TrimSpace. rewrite (chunks_byteChunks _ Hsimple).
  subst text.
  change (String c (body +:+ String d EmptyString))
    with (String c body +:+ String d EmptyString).
  rewrite !byteChunks_app. unfold nl.
  cbn [byteChunks]. rewrite Hc, Hd.
  change (asciiSpace "010") with true.
  rewrite <- app_assoc. cbn [app dropSpaces isSpace].
  rewrite app_comm_cons, rev_app_distr. cbn [rev app dropSpaces isSpace].
  rewrite rev_app_distr, rev_involutive. cbn [rev app].
  transitivity (unchunk (byteChunks (String c body +:+ String d EmptyString)));
    [|apply unchunk_byteChunks].
  rewrite byteChunks_app. cbn [byteChunks app].
  now rewrite Hc, Hd.
Qed.

(** ** The fields of a line *)

Lemma fieldsOf_word w cs :
  allBytes notSpaceByte w = true ->
  fieldsOf (byteChunks w ++ cs)
  = (w +:+ fst (fieldsOf cs), snd (fieldsOf cs)).
Proof.
  induction w as [|c w IH]; intros H.
  - cbn [byteChunks app]. now destruct (fieldsOf cs).
  - cbn [allBytes] in H. apply andb_prop in H as [Hc Hw].
    unfold notSpaceByte in Hc. apply negb_true_iff in Hc.
    cbn [byteChunks app fieldsOf]. rewrite (IH Hw).
    cbn [isSpace bytes]. rewrite Hc. reflexivity.
Qed.

Lemma fieldsOf_spaces n cs :
  fieldsOf (byteChunks (spaces (S n)) ++ cs) = (EmptyString, closed (fieldsOf cs)).
Proof.
  induction n as [|n IH].
  - cbn [spaces byteChunks app fieldsOf]. unfold closed.
    destruct (fieldsOf cs) as [[|a s] rest]; reflexivity.
  - change (spaces (S (S n))) with (String " "%char (spaces (S n))).
    cbn [byteChunks app fieldsOf]. rewrite IH. reflexivity.
Qed.

Lemma isWord_spec s :
  isWord s = true -> s <> EmptyString /\ spaceFree s = true.
Proof.
  unfold isWord. intros H. apply andb_prop in H as [Hne Hall].
  split; [|exact Hall]. apply negb_true_iff in Hne. now apply String.eqb_neq.
Qed.

Lemma readable_spec l :
  readable l = true ->
  (git.Path (worktreeOf l) <> EmptyString
   /\ spaceFree (git.Path (worktreeOf l)) = true)
  /\ (commit l <> EmptyString /\ spaceFree (commit l) = true)
  /\ spaceFree (git.Branch (worktreeOf l)) = true
  /\ Trim (git.Branch (worktreeOf l)) "[]" = git.Branch (worktreeOf l).
Proof.
  unfold readable. intros H.
  apply andb_prop in H as [H Htrim]. apply andb_prop in H as [H Hb].
  apply andb_prop in H as [Hp Hc].
  repeat split; try (now apply isWord_spec); try assumption.
  now apply String.eqb_eq.
Qed.

Lemma bracketed_asciiSpaced b :
  spaceFree b = true -> asciiSpaced ("[" +:+ b +:+ "]") = true.
Proof.
  intros Hb. apply (asciiSpaced_after_ascii "["); [reflexivity|].
  apply asciiSpaced_app; [now apply spaceFree_asciiSpaced|reflexivity|reflexivity].
Qed.

Lemma printLine_asciiSpaced l :
  readable l = true -> asciiSpaced (printLine l) = true.
Proof.
  intros H. destruct (readable_spec _ H) as ((_ & Hp) & (_ & Hc) & Hb & _).
  unfold printLine.
  apply asciiSpaced_app; [now apply spaceFree_asciiSpaced| |reflexivity].
  apply asciiSpaced_after_ascii; [now apply allBytes_spaces|].
  apply asciiSpaced_app; [now apply spaceFree_asciiSpaced| |reflexivity].
  change (" [" +:+ git.Branch (worktreeOf l) +:+ "]")
    with (" " +:+ ("[" +:+ git.Branch (worktreeOf l) +:+ "]")).
  apply asciiSpaced_after_ascii; [reflexivity|].
  now apply bracketed_asciiSpaced.
Qed.

Lemma append_nil_r s : s +:+ EmptyString = s.
Proof.
  induction s as [|c s IH]; [reflexivity|].
  change (String c s +:+ EmptyString) with (String c (s +:+ EmptyString)).
  now rewrite IH.
Qed.

Lemma closed_word s rest : s <> EmptyString -> closed (s, rest) = s :: rest.
Proof. destruct s; [congruence|reflexivity]. Qed.

Lemma Fields_printLine l :
  readable l = true ->
  Fields (printLine l)
  = [git.Path (worktreeOf l); commit l;
     "[" +:+ git.Branch (worktreeOf l) +:+ "]"].
Proof.
  intros Hl. unfold Fields. rewrite (chunks_byteChunks _ (printLine_asciiSpaced _ Hl)).
  destruct (readable_spec _ Hl) as ((Hpne & Hp) & (Hcne & Hc) & Hx0 & _).
  apply spaceFree_notSpace in Hp, Hc, Hx0.
  assert (Hb : allBytes notSpaceByte ("[" +:+ git.Branch (worktreeOf l) +:+ "]") = true).
  { change ("[" +:+ git.Branch (worktreeOf l) +:+ "]")
      with (String "["%char (git.Branch (worktreeOf l) +:+ "]")).
    cbn [allBytes]. rewrite allBytes_app, Hx0. reflexivity. }
  assert (Hbne : "[" +:+ git.Branch (worktreeOf l) +:+ "]" <> EmptyString)
    by discriminate.
  unfold printLine.
  change (" [" +:+ git.Branch (worktreeOf l) +:+ "]")
    with (spaces 1 +:+ ("[" +:+ git.Branch (worktreeOf l) +:+ "]")).
  set (br := "[" +:+ git.Branch (worktreeOf l) +:+ "]") in *.
  rewrite !byteChunks_app.
  rewrite <- (app_nil_r (byteChunks br)).
  rewrite (fieldsOf_word _ _ Hp), fieldsOf_spaces, (fieldsOf_word _ _ Hc),
          fieldsOf_spaces, (fieldsOf_word _ _ Hb).
  cbn [fieldsOf fst snd]. rewrite !append_nil_r.
  rewrite (closed_word _ _ Hbne), (closed_word _ _ Hcne).
  destruct (git.Path (worktreeOf l)); [congruence|reflexivity].
Qed.

(** ** Brackets around a branch *)

Lemma TrimLeft_app b x cutset :
  TrimLeft (b +:+ x) cutset
  = match TrimLeft b cutset with
    | EmptyString => TrimLeft x cutset
    | r => r +:+ x
    end.
Proof.
  induction b as [|c b IH]; [reflexivity|].
  change (String c b +:+ x) with (String c (b +:+ x)).
  cbn [TrimLeft]. destruct (inCutset c cutset); [exact IH|reflexivity].
Qed.

Lemma TrimRight_closing a t cutset :
  TrimRight t cutset = EmptyString ->
  TrimRight (a +:+ t) cutset = TrimRight a cutset.
Proof.
  intros Ht. induction a as [|c a IH]; [exact Ht|].
  change (String c a +:+ t) with (String c (a +:+ t)).
  cbn [TrimRight]. now rewrite IH.
Qed.

(** The brackets around a branch are trimmed with the branch. *)
Lemma Trim_brackets_around b :
  Trim ("[" +:+ b +:+ "]") "[]" = Trim b "[]".
Proof.
  unfold Trim.
  change ("[" +:+ b +:+ "]") with (String "["%char (b +:+ "]")).
  cbn [TrimLeft inCutset Ascii.eqb Bool.eqb orb andb]. rewrite TrimLeft_app.
  destruct (TrimLeft b "[]") as [|c r] eqn:Hb; [reflexivity|].
  now apply TrimRight_closing.
Qed.

Lemma recordsOfLine_printLine l :
  readable l = true -> recordsOfLine (printLine l) = [worktreeOf l].
Proof.
  intros Hl. unfold recordsOfLine. rewrite (Fields_printLine _ Hl).
  rewrite Trim_brackets_around.
  destruct (readable_spec _ Hl) as (_ & _ & _ & Hb).
  rewrite Hb. now destruct (worktreeOf l).
Qed.

(** ** The lines of a listing *)

Lemma Split_newline_one s :
  allBytes (fun c => negb (Ascii.eqb c newline)) s = true ->
  Split s newline = [s].
Proof.
  induction s as [|c s IH]; [reflexivity|]. cbn [allBytes Split].
  intros H. apply andb_prop in H as [Hc Hs]. apply negb_true_iff in Hc.
  now rewrite Hc, (IH Hs).
Qed.

Lemma Split_newline_app a b :
  allBytes (fun c => negb (Ascii.eqb c newline)) a = true ->
  Split (a +:+ String newline b) newline = a :: Split b newline.
Proof.
  induction a as [|c a IH]; intros H.
  - change (EmptyString +:+ String newline b) with (String newline b).
    cbn [Split]. now rewrite Ascii.eqb_refl.
  - change (String c a +:+ String newline b) with (String c (a +:+ String newline b)).
    cbn [allBytes] in H. apply andb_prop in H as [Hc Ha]. apply negb_true_iff in Hc.
    cbn [Split]. now rewrite Hc, (IH Ha).
Qed.

Lemma notSpace_not_newline c :
  notSpaceByte c = true -> negb (Ascii.eqb c newline) = true.
Proof.
  intros Hc. apply negb_true_iff. apply Ascii.eqb_neq. intros ->. discriminate.
Qed.

Lemma printLine_no_newline l :
  readable l = true ->
  allBytes (fun c => negb (Ascii.eqb c newline)) (printLine l) = true.
Proof.
  intros H. destruct (readable_spec _ H) as ((_ & Hp) & (_ & Hc) & Hx0 & _).
  apply spaceFree_notSpace in Hp, Hc, Hx0.
  unfold printLine. rewrite !allBytes_app.
  rewrite (allBytes_impl _ _ _ notSpace_not_newline Hp),
          (allBytes_impl _ _ _ notSpace_not_newline Hc),
          (allBytes_impl _ _ _ notSpace_not_newline Hx0),
          allBytes_spaces by reflexivity.
  reflexivity.
Qed.

Lemma printListing_body ls : forall l,
  printListing (l :: ls) = bodyOf l ls +:+ nl.
Proof.
  induction ls as [|l1 ls IH]; intros l.
  - cbn [printListing bodyOf]. reflexivity.
  - change (printListing (l :: l1 :: ls))
      with (printLine l +:+ nl +:+ printListing (l1 :: ls)).
    rewrite IH. cbn [bodyOf]. rewrite append_assoc. reflexivity.
Qed.

Lemma Split_body ls : forall l,
  forallb readable (l :: ls) = true ->
  Split (bodyOf l ls) newline = map printLine (l :: ls).
Proof.
  induction ls as [|l1 ls IH]; intros l H.
  - cbn [forallb] in H. apply andb_prop in H as [Hl _].
    cbn [bodyOf map]. apply Split_newline_one. now apply printLine_no_newline.
  - cbn [forallb] in H. apply andb_prop in H as [Hl Hls].
    cbn [bodyOf]. rewrite Split_newline_app by now apply printLine_no_newline.
    rewrite IH by exact Hls. reflexivity.
Qed.

(** A line starts with a byte of its path and ends with the bracket. *)
Lemma printLine_frame l :
  readable l = true ->
  exists c body,
    printLine l = String c (body +:+ "]") /\ asciiSpace c = false.
Proof.
  intros Hl. destruct (readable_spec _ Hl) as ((Hpne & Hp) & _).
  apply spaceFree_notSpace in Hp.
  unfold printLine in *.
  destruct (git.Path (worktreeOf l)) as [|c p]; [congruence|].
  exists c, (p +:+ spaces (S (padding l)) +:+ commit l +:+ " ["
             +:+ git.Branch (worktreeOf l)).
  cbn [allBytes] in Hp. apply andb_prop in Hp as [Hc _].
  unfold notSpaceByte in Hc. apply negb_true_iff in Hc.
  split; [|exact Hc].
  change (String c p +:+ spaces (S (padding l)) +:+ commit l +:+ " ["
          +:+ git.Branch (worktreeOf l) +:+ "]")
    with (String c (p +:+ spaces (S (padding l)) +:+ commit l +:+ " ["
                    +:+ git.Branch (worktreeOf l) +:+ "]")).
  f_equal. rewrite !append_assoc. reflexivity.
Qed.

Lemma bodyOf_frame ls : forall l,
  forallb readable (l :: ls) = true ->
  asciiSpaced (bodyOf l ls) = true
  /\ exists c body,
       bodyOf l ls = String c (body +:+ "]") /\ asciiSpace c = false.
Proof.
  induction ls as [|l1 ls IH]; intros l H.
  - cbn [forallb] in H. apply andb_prop in H as [Hl _].
    split; [now apply printLine_asciiSpaced|now apply printLine_frame].
  - cbn [forallb] in H. apply andb_prop in H as [Hl Hls].
    destruct (IH l1 Hls) as (Hs1 & c1 & body1 & Heq1 & Hc1).
    destruct (printLine_frame _ Hl) as (c & body & Heq & Hc).
    cbn [bodyOf]. split.
    + apply asciiSpaced_app; [now apply printLine_asciiSpaced| |reflexivity].
      apply (asciiSpaced_after_ascii (String newline EmptyString));
        [reflexivity|exact Hs1].
    + rewrite Heq, Heq1.
      exists c, (body +:+ "]" +:+ String newline (String c1 body1)).
      split; [|exact Hc].
      change (String c (body +:+ "]") +:+ String newline (String c1 (body1 +:+ "]")))
        with (String c ((body +:+ "]") +:+ String newline (String c1 (body1 +:+ "]")))).
      f_equal. rewrite !append_assoc. reflexivity.
Qed.

Lemma parse_printListing ls :
  forallb readable ls = true ->
  git.parseWorktrees (printListing ls) = map worktreeOf ls.
Proof.
  intros H. unfold git.parseWorktrees. rewrite fold_parseLine. cbn [app].
  destruct ls as [|l ls]; [reflexivity|].
  rewrite printListing_body.
  destruct (bodyOf_frame ls l H) as (Hs & c & body & Heq & Hc).
  rewrite Heq in Hs |- *.
  rewrite (TrimSpace_newline c body "]"%char Hc eq_refl Hs).
  rewrite <- Heq. change "010"%char with newline. rewrite (Split_body _ _ H).
  clear Heq Hc Hs c body. revert H. generalize (l :: ls). clear l ls.
  intros ls. induction ls as [|l ls IH]; [reflexivity|].
  cbn [forallb map flat_map]. intros H. apply andb_prop in H as [Hl Hls].
  rewrite (recordsOfLine_printLine _ Hl), (IH Hls). reflexivity.
Qed.

End ReadingBack.

(** X22.  List-worktrees reads back what git lists.  When the output of
    [git worktree list] is a listing whose lines hold a path, blanks, a
    commit and a branch in brackets, path and commit being words without
    white space (any bytes in which no white-space rune starts) and the
    branch having no white space and no bracket at either end, the records
    returned are the worktrees of the listing: their paths and branches, in
    the order of the lines. *)
Theorem ListWorktrees_reads_back_a_listing env ls :
  forallb readable ls = true ->
  runErr (status (git_run env ["worktree"; "list"])) = None ->
  stdout (git_run env ["worktree"; "list"]) = printListing ls ->
  value git.ListWorktrees env = Ok (map worktreeOf ls).
Proof.
  intros Hls Hrun Hout. unfold_prog. rewrite Hrun. unfold_prog.
  rewrite Hout, (parse_printListing _ Hls). reflexivity.
Qed.

Lemma ListWorktrees_reads_back_a_listing_witness :
  let hiragana := String "227" (String "129" (String "130" EmptyString)) in
  let listing :=
    [mkListingLine (git.mkWorktree "/srv/git/repo" "main") 14 "1a2b3c4";
     mkListingLine (git.mkWorktree ("/home/u/worktrees/repo/" +:+ hiragana)
                                   ("feature/" +:+ hiragana)) 1 "5d6e7f8"] in
  let env := mkEnv (fun _ => Sample.ran (printListing listing))
                   (Ok "/home/u") (fun _ => None) Sample.stat Sample.read_dir
                   Sample.parse_base Sample.parse_d in
  value git.ListWorktrees env
  = Ok [git.mkWorktree "/srv/git/repo" "main";
        git.mkWorktree ("/home/u/worktrees/repo/" +:+ hiragana)
                       ("feature/" +:+ hiragana)].
Proof.
  cbv zeta.
  exact (ListWorktrees_reads_back_a_listing
           (mkEnv (fun _ => Sample.ran (printListing
              [mkListingLine (git.mkWorktree "/srv/git/repo" "main") 14 "1a2b3c4";
               mkListingLine
                 (git.mkWorktree
                    ("/home/u/worktrees/repo/"
                     +:+ String "227" (String "129" (String "130" EmptyString)))
                    ("feature/"
                     +:+ String "227" (String "129" (String "130" EmptyString))))
                 1 "5d6e7f8"]))
              (Ok "/home/u") (fun _ => None) Sample.stat Sample.read_dir
              Sample.parse_base Sample.parse_d)
           [mkListingLine (git.mkWorktree "/srv/git/repo" "main") 14 "1a2b3c4";
            mkListingLine
              (git.mkWorktree
                 ("/home/u/worktrees/repo/"
                  +:+ String "227" (String "129" (String "130" EmptyString)))
                 ("feature/"
                  +:+ String "227" (String "129" (String "130" EmptyString))))
              1 "5d6e7f8"]
           eq_refl eq_refl eq_refl).
Defined.
(* ===================================================================== *)
(** * What cd prints for the shell *)
(* ===================================================================== *)

(** X15.  What cd prints for the shell.  With a ticket and inside a
    repository the command exits with 0 and what it writes to standard
    output is exactly the text [cd <path>] and a newline, the path being
    the join of the manager's base path, the repository name and the
    ticket; this text is one line whenever the path holds no newline.
    Without a ticket, or outside a repository, the command exits with 1
    and writes nothing to standard output, so that the shell evaluates
    nothing. *)
Theorem handleCD_prints_for_the_shell osArgs env :
  let run := main.handleCD osArgs in
  (forall repo,
      value git.GetRepoName env = Ok repo ->
      2 < length osArgs ->
      let path := filepath.Join
                    [worktree.basePath (value worktree.NewManager env);
                     repo; nth 2 osArgs EmptyString] in
      value run env = 0
      /\ stdoutLog (events run env) = [cdLine path]
      /\ (allBytes (fun c => negb (Ascii.eqb c newline)) path = true ->
          strings.Split (cdLine path) newline = ["cd " +:+ path; EmptyString]))
  /\ (length osArgs <= 2 \/ (exists e, value git.GetRepoName env = Err e) ->
      value run env = 1 /\ stdoutLog (events run env) = []).
Proof.
  cbv zeta. split.
  - intros repo Hrepo Hlen.
    destruct (GetRepoName_Ok _ _ Hrepo) as [Hrun ->].
    assert (Hl : (length osArgs <? 3) = false) by (apply Nat.ltb_ge; lia).
    repeat split.
    + unfold_main. rewrite Hl. unfold_main.
      destruct (home_dir env); unfold_main; rewrite Hrun; reflexivity.
    + unfold_main. rewrite Hl. unfold_main.
      destruct (home_dir env); unfold_main; rewrite Hrun; reflexivity.
    + intros Hpath. unfold cdLine, nl.
      rewrite <- append_assoc.
      change (String "010" EmptyString) with (String newline EmptyString).
      rewrite Split_newline_app; [reflexivity|].
      rewrite allBytes_app, Hpath. reflexivity.
  - intros [Hlen|[e He]].
    + assert (Hl : (length osArgs <? 3) = true) by (apply Nat.ltb_lt; lia).
      unfold_main. rewrite Hl. split; reflexivity.
    + destruct (GetRepoName_Err _ _ He) as (e' & Hrun & _).
      unfold_main. destruct (length osArgs <? 3); [split; reflexivity|].
      unfold_main. destruct (home_dir env); unfold_main; rewrite Hrun;
        split; reflexivity.
Qed.

Lemma handleCD_prints_for_the_shell_witness :
  value (main.handleCD ["go-worktree"; "cd"; "T-1"]) Sample.env = 0
  /\ stdoutLog (events (main.handleCD ["go-worktree"; "cd"; "T-1"]) Sample.env)
     = [cdLine "/home/u/worktrees/repo/T-1"]
  /\ strings.Split (cdLine "/home/u/worktrees/repo/T-1") newline
     = ["cd /home/u/worktrees/repo/T-1"; EmptyString]
  /\ value (main.handleCD ["go-worktree"; "cd"]) Sample.env = 1
  /\ stdoutLog (events (main.handleCD ["go-worktree"; "cd"]) Sample.env) = [].
Proof.
  destruct (handleCD_prints_for_the_shell ["go-worktree"; "cd"; "T-1"] Sample.env)
    as [Hok _].
  destruct (handleCD_prints_for_the_shell ["go-worktree"; "cd"] Sample.env)
    as [_ Hfail].
  assert (H3 : 2 < length ["go-worktree"; "cd"; "T-1"])
    by (apply Nat.ltb_lt; reflexivity).
  assert (H2 : length ["go-worktree"; "cd"] <= 2)
    by (apply Nat.leb_le; reflexivity).
  destruct (Hok "repo" eq_refl H3) as (Hv & Hout & Hline).
  destruct (Hfail (or_introl H2)) as (Hv1 & Hout1).
  split; [exact Hv|]. split; [exact Hout|]. split; [exact (Hline eq_refl)|].
  split; [exact Hv1|exact Hout1].
Defined.
